(** * BQMCPServer: the BigQuery and Reddit tool servers

    A shallow embedding of [bqMCPServer.py] and
    [RedditMCPServer/RedditMCP.py], followed by the properties of the two
    adapters: the rewriting of table references, the BigQuery tools, the
    Reddit tools.

    A tool is a computation over a store that returns a value or raises; the
    vendor clients are records of outcomes, so a theorem over all worlds is a
    theorem over everything the clients may answer.

    Python [str] values are modelled as [string]; a character is a code point
    below 256, so every statement quantifies over text in that range.  The
    character classes of [re] and of [str.strip] are the ones CPython uses for
    those code points. *)

From Stdlib Require Import Bool Arith ZArith List Ascii String Lia.
From Stdlib Require Import DecimalString.
From Stdlib Require QArith_base.
Import ListNotations.

Local Open Scope string_scope.

(* ================================================================== *)
(** * Python runtime: characters, [str] methods, [re] *)
(* ================================================================== *)

Module Py.

(** ** Characters *)

Definition code (c : ascii) : N := N_of_ascii c.

Definition in_range (lo hi : N) (c : ascii) : bool :=
  (N.leb lo (code c) && N.leb (code c) hi)%bool.

Definition is_upper_az (c : ascii) : bool := in_range 65 90 c.
Definition is_lower_az (c : ascii) : bool := in_range 97 122 c.
Definition is_digit (c : ascii) : bool := in_range 48 57 c.

(** [str.isspace] on one character: tab to carriage return, the four
    separators FS..US, the space, NEL and the no-break space.  The same class
    is [\s] of a [str] pattern and what [str.strip()] removes. *)
Definition is_space (c : ascii) : bool :=
  (in_range 9 13 c || in_range 28 32 c
   || N.eqb (code c) 133 || N.eqb (code c) 160)%bool.

(** [\w] of a [str] pattern: alphanumeric in the Unicode sense, or the
    underscore.  Below 256 the alphanumerics outside ASCII are the ordinal
    indicators, the superscript digits, micro, the vulgar fractions and the
    accented letters (neither the multiplication nor the division sign). *)
Definition is_word (c : ascii) : bool :=
  (is_upper_az c || is_lower_az c || is_digit c || N.eqb (code c) 95
   || N.eqb (code c) 170 || N.eqb (code c) 178 || N.eqb (code c) 179
   || N.eqb (code c) 181 || N.eqb (code c) 185 || N.eqb (code c) 186
   || in_range 188 190 c || in_range 192 214 c || in_range 216 246 c
   || in_range 248 255 c)%bool.

(** [[a-zA-Z_]] and [[a-zA-Z0-9_]].  Under [re.IGNORECASE] a class also
    accepts the case variants of its members; below 256 these add nothing. *)
Definition ident_start (c : ascii) : bool :=
  (is_lower_az c || is_upper_az c || N.eqb (code c) 95)%bool.

Definition ident_char (c : ascii) : bool :=
  (is_lower_az c || is_upper_az c || is_digit c || N.eqb (code c) 95)%bool.

(** Lower-casing of the ASCII capitals.  A pattern letter of this program is
    always an ASCII letter, and no other code point below 256 lower-cases to
    one, so this decides case-insensitive equality with a pattern letter. *)
Definition lower_az (c : ascii) : ascii :=
  if is_upper_az c then ascii_of_N (code c + 32) else c.

Definition ci_eqb (a b : ascii) : bool := Ascii.eqb (lower_az a) (lower_az b).

(** ** [str] methods *)

(** [s.startswith(p)] *)
Fixpoint startswith (p s : string) : bool :=
  match p with
  | EmptyString => true
  | String a p' =>
      match s with
      | EmptyString => false
      | String b s' => (Ascii.eqb a b && startswith p' s')%bool
      end
  end.

(** [needle in hay] *)
Fixpoint contains (needle hay : string) : bool :=
  (startswith needle hay
   || match hay with
      | EmptyString => false
      | String _ hay' => contains needle hay'
      end)%bool.

(** [s[:n]] for [n >= 0] *)
Fixpoint take (n : nat) (s : string) : string :=
  match n, s with
  | S n', String c s' => String c (take n' s')
  | _, _ => EmptyString
  end.

(** [s[n:]] for [n >= 0] *)
Fixpoint drop (n : nat) (s : string) : string :=
  match n, s with
  | S n', String _ s' => drop n' s'
  | _, _ => s
  end.

(** [str.upper] of one character, as a string: sharp s becomes two letters.
    The capitals of micro and of y with diaeresis lie above 255 and are kept
    as they are; neither is an ASCII letter, which is all the callers test. *)
Definition upper_char (c : ascii) : string :=
  if is_lower_az c then String (ascii_of_N (code c - 32)) EmptyString
  else if N.eqb (code c) 223 then "SS"
  else if (in_range 224 246 c || in_range 248 254 c)%bool
       then String (ascii_of_N (code c - 32)) EmptyString
  else String c EmptyString.

Fixpoint upper (s : string) : string :=
  match s with
  | EmptyString => EmptyString
  | String c s' => upper_char c ++ upper s'
  end.

Fixpoint lstrip (s : string) : string :=
  match s with
  | String c s' => if is_space c then lstrip s' else s
  | EmptyString => EmptyString
  end.

(** Removes trailing whitespace: a character is kept when it is not a space or
    when something is kept after it. *)
Fixpoint rstrip (s : string) : string :=
  match s with
  | EmptyString => EmptyString
  | String c s' =>
      match rstrip s' with
      | EmptyString => if is_space c then EmptyString else String c EmptyString
      | t => String c t
      end
  end.

Definition strip (s : string) : string := rstrip (lstrip s).

(** ** Regular expressions: the fragment of [re] the server uses *)

Inductive regex : Type :=
| Eps                                (* the empty pattern *)
| Boundary                           (* \b *)
| Lit (c : ascii)                    (* a letter, under IGNORECASE *)
| Class (p : ascii -> bool)          (* one character of a class *)
| Star (p : ascii -> bool)           (* class*, greedy *)
| Plus (p : ascii -> bool)           (* class+, greedy *)
| NotAhead (r : regex)               (* (?!r) *)
| Group (r : regex)                  (* (r), the group numbered 1 *)
| Cat (r1 r2 : regex).

(** The letters of a keyword, one [Lit] each. *)
Fixpoint word (s : string) : regex :=
  match s with
  | EmptyString => Eps
  | String c s' => Cat (Lit c) (word s')
  end.

Definition is_word_at (c : option ascii) : bool :=
  match c with Some a => is_word a | None => false end.

Definition head (s : string) : option ascii :=
  match s with String c _ => Some c | EmptyString => None end.

(** [\b]: exactly one of the two neighbours is a word character; the two ends
    of the text count as non-word. *)
Definition at_boundary (prev : option ascii) (s : string) : bool :=
  xorb (is_word_at prev) (is_word_at (head s)).

(** Greedy repetition of a class with backtracking: the longest run is tried
    first, then shorter ones. *)
Fixpoint rep {R : Type} (p : ascii -> bool) (prev : option ascii) (s : string)
    (k : option ascii -> string -> option R) : option R :=
  match s with
  | String a s' =>
      if p a then
        match rep p (Some a) s' k with
        | Some x => Some x
        | None => k prev s
        end
      else k prev s
  | EmptyString => k prev s
  end.

(** Backtracking matcher in continuation style.  [prev] is the character
    before the current position, [s] the text from the current position on and
    [g] the text captured by the group so far. *)
Fixpoint rmatch (r : regex) (R : Type) (prev : option ascii) (s : string)
    (g : option string)
    (k : option ascii -> string -> option string -> option R) : option R :=
  match r with
  | Eps => k prev s g
  | Boundary => if at_boundary prev s then k prev s g else None
  | Lit c =>
      match s with
      | String a s' => if ci_eqb a c then k (Some a) s' g else None
      | EmptyString => None
      end
  | Class p =>
      match s with
      | String a s' => if p a then k (Some a) s' g else None
      | EmptyString => None
      end
  | Star p => rep p prev s (fun prev' s' => k prev' s' g)
  | Plus p =>
      match s with
      | String a s' =>
          if p a then rep p (Some a) s' (fun prev' s' => k prev' s' g) else None
      | EmptyString => None
      end
  | NotAhead r' =>
      match rmatch r' unit prev s g (fun _ _ _ => Some tt) with
      | Some _ => None
      | None => k prev s g
      end
  | Group r' =>
      rmatch r' R prev s g
        (fun prev' s' _ =>
           k prev' s' (Some (take (String.length s - String.length s') s)))
  | Cat r1 r2 =>
      rmatch r1 R prev s g (fun prev' s' g' => rmatch r2 R prev' s' g' k)
  end.

(** A match of [r] that starts at the current position: the number of
    characters it spans and the text of group 1. *)
Definition match_at (r : regex) (prev : option ascii) (s : string)
    : option (nat * option string) :=
  rmatch r _ prev s None
    (fun _ s' g => Some (String.length s - String.length s', g)).

(** A replacement template: literal text and references to group 1. *)
Inductive titem : Type :=
| TLit (s : string)
| TGroup1.

Definition template : Type := list titem.

Fixpoint expand (t : template) (g : option string) : string :=
  match t with
  | [] => EmptyString
  | TLit s :: t' => s ++ expand t' g
  | TGroup1 :: t' =>
      match g with Some x => x | None => EmptyString end ++ expand t' g
  end.

(** [re.sub] for a pattern whose matches are never empty (every pattern of
    this program starts with the letters of a keyword): the text is scanned
    from the left; a match is replaced by the expanded template and the scan
    resumes after it; a character at which nothing matches is copied.  [skip]
    counts the characters of the last match still to be passed over. *)
Fixpoint re_sub_from (r : regex) (repl : template) (prev : option ascii)
    (s : string) (skip : nat) : string :=
  match s with
  | EmptyString => EmptyString
  | String c s' =>
      match skip with
      | S k => re_sub_from r repl (Some c) s' k
      | O =>
          match match_at r prev s with
          | Some (S n, g) => expand repl g ++ re_sub_from r repl (Some c) s' n
          | _ => String c (re_sub_from r repl (Some c) s' 0)
          end
      end
  end.

Definition re_sub (r : regex) (repl : template) (s : string) : string :=
  re_sub_from r repl None s 0.

(** ** Exceptions and the effects of a call *)

(** An instance of [Exception]; [str(e)] is its text. *)
Inductive exn : Type :=
| Exception (text : string).

Definition str_exn (e : exn) : string :=
  match e with Exception text => text end.

(** What evaluating an expression gives: a value, or a raised exception. *)
Inductive result (A : Type) : Type :=
| Return (a : A)
| Raise (e : exn).

Arguments Return {A} a.
Arguments Raise {A} e.

(** A computation over a store [St]; the store keeps what was written to it
    before an exception was raised. *)
Definition M (St A : Type) : Type := St -> result A * St.

Definition ret {St A : Type} (a : A) : M St A := fun st => (Return a, st).

Definition raise {St A : Type} (e : exn) : M St A := fun st => (Raise e, st).

Definition bind {St A B : Type} (m : M St A) (f : A -> M St B) : M St B :=
  fun st =>
    match m st with
    | (Return a, st') => f a st'
    | (Raise e, st') => (Raise e, st')
    end.

(** [try: body / except Exception as e: handler e] *)
Definition try_except {St A : Type} (body : M St A) (handler : exn -> M St A)
    : M St A :=
  fun st =>
    match body st with
    | (Return a, st') => (Return a, st')
    | (Raise e, st') => handler e st'
    end.

(** The outcome of a call into a vendor library. *)
Definition call {St A : Type} (r : result A) : M St A := fun st => (r, st).

Definition modify {St : Type} (f : St -> St) : M St unit :=
  fun st => (Return tt, f st).

Definition get {St : Type} : M St St := fun st => (Return st, st).

(** ** JSON documents: the values handed to [json.dumps] *)

Local Set Warnings "-register-all".

Inductive json : Type :=
| JNull
| JBool (b : bool)
| JInt (n : Z)
| JFloat (q : QArith_base.Q)
| JStr (s : string)
| JList (l : list json)
| JObj (members : list (string * json)).

(** [d.get(key)] on an object; [None] on anything else. *)
Fixpoint lookup_member (key : string) (members : list (string * json))
    : option json :=
  match members with
  | [] => None
  | (k, v) :: rest => if String.eqb k key then Some v else lookup_member key rest
  end.

Definition field (key : string) (doc : json) : option json :=
  match doc with
  | JObj members => lookup_member key members
  | _ => None
  end.

(** The text [json.dumps(doc, indent=indent)], kept as the call that makes
    it: the serializer itself is not modelled, and two texts are compared
    through the documents they were made from. *)
Inductive json_text : Type :=
| json_dumps (indent : option nat) (doc : json).

Definition document (t : json_text) : json :=
  match t with json_dumps _ doc => doc end.

(** [s.endswith(suffix)] *)
Definition endswith (suffix s : string) : bool :=
  (Nat.leb (String.length suffix) (String.length s)
   && String.eqb (drop (String.length s - String.length suffix) s) suffix)%bool.

(** [str(n)] for an [int] *)
Definition str_int (n : Z) : string := NilEmpty.string_of_int (Z.to_int n).

(** The line feed. *)
Definition nl : string := String (ascii_of_N 10) EmptyString.

(** [l[:n]] for any integer [n]: a negative bound counts from the end. *)
Definition slice_to {A : Type} (n : Z) (l : list A) : list A :=
  if (0 <=? n)%Z then firstn (Z.to_nat n) l
  else firstn (List.length l - Z.to_nat (- n)) l.

End Py.

Declare Scope py_scope.
Delimit Scope py_scope with py.
Notation "x <- c ;; k" := (Py.bind c (fun x => k))
  (at level 61, c at next level, right associativity) : py_scope.
Notation "c ;;; k" := (Py.bind c (fun _ => k))
  (at level 61, right associativity) : py_scope.

(* ================================================================== *)
(** * bqMCPServer.py *)
(* ================================================================== *)

Module BigQuery.
Import Py.

Definition PROJECT_ID : string := "[Insert your project ID here]".
Definition DATASET_ID : string := "[Insert your dataset ID here]".

(** [f"{PROJECT_ID}.{DATASET_ID}"] *)
Definition qualified_prefix : string := PROJECT_ID ++ "." ++ DATASET_ID.

(** The capturing group of the four patterns: one character of [[a-zA-Z_]]
    and then any number of [[a-zA-Z0-9_]]. *)
Definition identifier : regex := Group (Cat (Class ident_start) (Star ident_char)).

(** [IF\s+EXISTS] *)
Definition if_exists : regex := Cat (word "IF") (Cat (Plus is_space) (word "EXISTS")).

(** The replacement [f'KW `{PROJECT_ID}.{DATASET_ID}.\\1`'].  Neither
    constant holds a backslash, so the template has one group reference. *)
Definition qualify (kw : string) : template :=
  [TLit (kw ++ " `" ++ PROJECT_ID ++ "." ++ DATASET_ID ++ "."); TGroup1; TLit "`"].

(** The list [patterns] of [query_bigquery], in its order. *)
Definition patterns : list (regex * template) :=
  [ (Cat Boundary (Cat (word "FROM") (Cat (Plus is_space) (Cat identifier Boundary))),
     qualify "FROM");
    (Cat Boundary (Cat (word "INTO") (Cat (Plus is_space) (Cat identifier Boundary))),
     qualify "INTO");
    (Cat Boundary (Cat (word "UPDATE") (Cat (Plus is_space) (Cat identifier Boundary))),
     qualify "UPDATE");
    (Cat Boundary (Cat (word "TABLE") (Cat (Plus is_space)
       (Cat (NotAhead if_exists) (Cat identifier Boundary)))),
     qualify "TABLE") ].

(** The first block of [query_bigquery]: the statement that is handed to the
    client. *)
Definition rewrite_query (query : string) : string :=
  if negb (contains qualified_prefix query) then
    fold_left (fun q pr => re_sub (fst pr) (snd pr) q) patterns query
  else query.

(** ** The client and what it gives back *)

Record schema_field : Type := {
  field_name : string;
  field_type : string
}.

(** [dict(row)]: the columns of a row with their values, in order. *)
Definition row : Type := list (string * json).

(** The iterator returned by [query_job.result()].  Iterating it fetches the
    pages of the result and can fail. *)
Record row_iterator : Type := {
  total_rows : option Z;
  schema : list schema_field;
  fetch_rows : result (list row)
}.

(** [num_dml_affected_rows]: [None] when the job has no such attribute, else
    the attribute, which is [None] or an [int]. *)
Record query_job : Type := {
  job_result : result row_iterator;
  num_dml_affected_rows : option (option Z)
}.

Record job_config : Type := {
  use_query_cache : bool;
  use_legacy_sql : bool
}.

(** A [bigquery.Client] instance: its identity and its [query] method. *)
Record client : Type := {
  client_instance : nat;
  client_query : string -> job_config -> result query_job
}.

Inductive credentials : Type :=
| Credentials (key : string).

(** What the process finds around it when it acquires a client. *)
Record world : Type := {
  path_exists : bool;                       (* os.path.exists(service_account_path) *)
  from_service_account_file : result credentials;
  env_credentials : option string;          (* os.environ.get('GOOGLE_APPLICATION_CREDENTIALS') *)
  new_client : option credentials -> result client  (* bigquery.Client(project=..., [credentials=...]) *)
}.

Inductive event : Type :=
| LoadedCredentials                    (* from_service_account_file was called *)
| BuiltClient (explicit : bool)        (* bigquery.Client was called *)
| Submitted (sql : string) (cfg : job_config).   (* client.query was called *)

(** The module-level state: the global [_bq_client], and the calls made so
    far, latest first. *)
Record process : Type := {
  _bq_client : option client;
  trace : list event
}.

Definition log (ev : event) : M process unit :=
  modify (fun st => {| _bq_client := _bq_client st; trace := ev :: trace st |}).

Definition set_bq_client (c : client) : M process unit :=
  modify (fun st => {| _bq_client := Some c; trace := trace st |}).

(** Truth value of a [str] or [None]. *)
Definition truthy (v : option string) : bool :=
  match v with
  | Some (String _ _) => true
  | _ => false
  end.

Definition no_authentication : exn :=
  Exception ("No authentication found. Please either:" ++ nl
             ++ "1. Set the service account path in the code" ++ nl
             ++ "2. Set GOOGLE_APPLICATION_CREDENTIALS environment variable" ++ nl
             ++ "3. Run 'gcloud auth application-default login'").

Local Open Scope py_scope.

Definition get_bigquery_client (w : world) : M process client :=
  st <- get ;;
  match _bq_client st with
  | Some c => ret c
  | None =>
      if path_exists w then
        log LoadedCredentials ;;;
        creds <- call (from_service_account_file w) ;;
        log (BuiltClient true) ;;;
        c <- call (new_client w (Some creds)) ;;
        set_bq_client c ;;;
        ret c
      else if truthy (env_credentials w) then
        log (BuiltClient false) ;;;
        c <- call (new_client w None) ;;
        set_bq_client c ;;;
        ret c
      else
        try_except
          (log (BuiltClient false) ;;;
           c <- call (new_client w None) ;;
           set_bq_client c ;;;
           ret c)
          (fun _ => raise no_authentication)
  end.

(** ** [query_bigquery] *)

Section QueryBigquery.

(** The characters of a serialized document.  The rows are dumped with
    [default=str]: a value that JSON cannot hold is printed by [str], and is a
    [JStr] in the document. *)
Variable text_of : json_text -> string.

(** One line of the schema listing. *)
Definition schema_line (f : schema_field) : string :=
  "  - " ++ field_name f ++ ": " ++ field_type f ++ nl.

(** How an f-string prints [results.total_rows]. *)
Definition show_total (n : option Z) : string :=
  match n with
  | Some k => str_int k
  | None => "None"
  end.

(** [query_upper.startswith(('SELECT', 'WITH'))] for the statement submitted. *)
Definition is_read (query : string) : bool :=
  let query_upper := strip (upper query) in
  (startswith "SELECT" query_upper || startswith "WITH" query_upper)%bool.

(** The count that the second branch reports: the attribute has to be there
    and be true, so neither [None] nor zero. *)
Definition affected (job : query_job) : option Z :=
  match num_dml_affected_rows job with
  | Some (Some n) => if (n =? 0)%Z then None else Some n
  | _ => None
  end.

Definition query_bigquery (w : world) (query : string) : M process string :=
  client <- get_bigquery_client w ;;
  let query := rewrite_query query in
  try_except
    (let cfg := {| use_query_cache := true; use_legacy_sql := false |} in
     log (Submitted query cfg) ;;;
     job <- call (client_query client query cfg) ;;
     results <- call (job_result job) ;;
     if is_read query then
       rows <- call (fetch_rows results) ;;
       ret ("Query executed successfully. Found " ++ show_total (total_rows results)
            ++ " rows." ++ nl ++ nl
            ++ "Schema:" ++ nl
            ++ String.concat "" (map schema_line (schema results))
            ++ nl ++ "Results:" ++ nl
            ++ text_of (json_dumps (Some 2%nat) (JList (map JObj rows))))
     else
       ret ("Query executed successfully."
            ++ match affected job with
               | Some n => " Affected " ++ str_int n ++ " rows."
               | None => ""
               end))
    (fun e => ret ("Query failed: " ++ str_exn e)).

End QueryBigquery.

End BigQuery.


(* ================================================================== *)
(** * RedditMCPServer/RedditMCP.py *)
(* ================================================================== *)

Module RedditMCP.
Import Py.

(** ** What PRAW hands to the server *)

(** A [Comment]; the author is [None] for a deleted account, else its name as
    [str(comment.author)] gives it. *)
Record Comment : Type := {
  comment_id : string;
  comment_author : option string;
  comment_body : string;
  comment_score : Z;
  comment_created_utc : QArith_base.Q;
  comment_is_submitter : bool;
  comment_stickied : bool;
  comment_gilded : Z
}.

(** A node of the top level of a comment forest: a comment, or a placeholder
    for comments not loaded yet, which has no [body]. *)
Inductive comment_node : Type :=
| IsComment (c : Comment)
| MoreComments.

(** A [Submission] with its attributes fetched. *)
Record Submission : Type := {
  post_id : string;
  post_title : string;
  post_author : option string;
  post_subreddit : string;               (* str(post.subreddit) *)
  post_score : Z;
  post_upvote_ratio : QArith_base.Q;
  post_num_comments : Z;
  post_created_utc : QArith_base.Q;
  post_url : string;
  post_permalink : string;
  post_selftext : string;
  post_is_self : bool;
  post_over_18 : bool;
  post_spoiler : bool;
  post_stickied : bool;
  post_link_flair_text : option string;
  post_gilded : Z;
  post_distinguished : option string;
  post_comments : list comment_node;     (* submission.comments, top level *)
  post_replace_more : result unit        (* how comments.replace_more(limit=0) ends *)
}.

(** The attributes of a [Subreddit] that [get_subreddit_info] reads. *)
Record subreddit_about : Type := {
  sr_display_name : string;
  sr_title : string;
  sr_description : string;
  sr_subscribers : Z;
  sr_active_user_count : option Z;
  sr_created_utc : QArith_base.Q;
  sr_over18 : bool;
  sr_public_description : string;
  sr_subreddit_type : string;
  sr_lang : string
}.

(** A [Subreddit] handle.  A listing is lazy: its outcome is what iterating it
    to the end gives, all the posts or the fault of a request. *)
Record Subreddit : Type := {
  hot : Z -> result (list Submission);
  new : Z -> result (list Submission);
  top : string -> Z -> result (list Submission);
  rising : Z -> result (list Submission);
  search : string -> string -> string -> Z -> result (list Submission);
  about : result subreddit_about
}.

(** The [praw.Reddit] instance. *)
Record Reddit : Type := {
  subreddit : string -> result Subreddit;
  submission : string -> result Submission   (* reddit.submission(id=...) and its fetch *)
}.

(** What [praw.Reddit(...)] gives in [get_reddit_client]. *)
Record world : Type := {
  new_reddit : result Reddit
}.

(** The calls made on the client and on what it returned, latest first. *)
Inductive client_call : Type :=
| CallSubreddit (name : string)
| CallHot (limit : Z)
| CallNew (limit : Z)
| CallTop (time_filter : string) (limit : Z)
| CallRising (limit : Z)
| CallSearch (query sort time_filter : string) (limit : Z)
| CallSubmission (id : string)
| CallReplaceMore (limit : Z).

Definition calls : Type := list client_call.

Definition log (c : client_call) : M calls unit := modify (cons c).

Local Open Scope py_scope.

Definition get_reddit_client (w : world) : M calls Reddit :=
  call (new_reddit w).

(** ** Shaping the records *)

(** [text[:limit] + "..." if len(text) > limit else text], the expression of
    the [selftext], [body] and [description] entries. *)
Definition truncated (limit : nat) (text : string) : string :=
  if Nat.ltb limit (String.length text) then take limit text ++ "..." else text.

(** [str(x) if x else "[deleted]"] *)
Definition author_name (a : option string) : string :=
  match a with
  | Some name => name
  | None => "[deleted]"
  end.

Definition opt_str (v : option string) : json :=
  match v with
  | Some s => JStr s
  | None => JNull
  end.

Definition opt_int (v : option Z) : json :=
  match v with
  | Some n => JInt n
  | None => JNull
  end.

(** [post_info] of [get_subreddit_posts] *)
Definition post_info (post : Submission) : json :=
  JObj [ ("id", JStr (post_id post));
         ("title", JStr (post_title post));
         ("author", JStr (author_name (post_author post)));
         ("score", JInt (post_score post));
         ("upvote_ratio", JFloat (post_upvote_ratio post));
         ("num_comments", JInt (post_num_comments post));
         ("created_utc", JFloat (post_created_utc post));
         ("url", JStr (post_url post));
         ("permalink", JStr ("https://reddit.com" ++ post_permalink post));
         ("selftext", JStr (truncated 500 (post_selftext post)));
         ("is_self", JBool (post_is_self post));
         ("over_18", JBool (post_over_18 post));
         ("spoiler", JBool (post_spoiler post));
         ("stickied", JBool (post_stickied post));
         ("flair_text", opt_str (post_link_flair_text post)) ].

(** The members of [post_details] of [get_post_details], before the comments
    are added. *)
Definition post_details (s : Submission) : list (string * json) :=
  [ ("id", JStr (post_id s));
    ("title", JStr (post_title s));
    ("author", JStr (author_name (post_author s)));
    ("subreddit", JStr (post_subreddit s));
    ("score", JInt (post_score s));
    ("upvote_ratio", JFloat (post_upvote_ratio s));
    ("num_comments", JInt (post_num_comments s));
    ("created_utc", JFloat (post_created_utc s));
    ("url", JStr (post_url s));
    ("permalink", JStr ("https://reddit.com" ++ post_permalink s));
    ("selftext", JStr (post_selftext s));
    ("is_self", JBool (post_is_self s));
    ("over_18", JBool (post_over_18 s));
    ("spoiler", JBool (post_spoiler s));
    ("stickied", JBool (post_stickied s));
    ("flair_text", opt_str (post_link_flair_text s));
    ("gilded", JInt (post_gilded s));
    ("distinguished", opt_str (post_distinguished s)) ].

(** [comment_info] of [get_post_details] *)
Definition comment_info (c : Comment) : json :=
  JObj [ ("id", JStr (comment_id c));
         ("author", JStr (author_name (comment_author c)));
         ("body", JStr (truncated 300 (comment_body c)));
         ("score", JInt (comment_score c));
         ("created_utc", JFloat (comment_created_utc c));
         ("is_submitter", JBool (comment_is_submitter c));
         ("stickied", JBool (comment_stickied c));
         ("gilded", JInt (comment_gilded c)) ].

(** [result_info] of [search_reddit] *)
Definition result_info (post : Submission) : json :=
  JObj [ ("id", JStr (post_id post));
         ("title", JStr (post_title post));
         ("author", JStr (author_name (post_author post)));
         ("subreddit", JStr (post_subreddit post));
         ("score", JInt (post_score post));
         ("num_comments", JInt (post_num_comments post));
         ("created_utc", JFloat (post_created_utc post));
         ("url", JStr (post_url post));
         ("permalink", JStr ("https://reddit.com" ++ post_permalink post));
         ("selftext", JStr (truncated 200 (post_selftext post))) ].

(** [subreddit_info] of [get_subreddit_info] *)
Definition subreddit_info (subreddit_name : string) (a : subreddit_about) : json :=
  JObj [ ("name", JStr (sr_display_name a));
         ("title", JStr (sr_title a));
         ("description", JStr (truncated 500 (sr_description a)));
         ("subscribers", JInt (sr_subscribers a));
         ("active_users", opt_int (sr_active_user_count a));
         ("created_utc", JFloat (sr_created_utc a));
         ("over18", JBool (sr_over18 a));
         ("public_description", JStr (sr_public_description a));
         ("url", JStr ("https://reddit.com/r/" ++ subreddit_name));
         ("subreddit_type", JStr (sr_subreddit_type a));
         ("lang", JStr (sr_lang a)) ].

(** [comments.replace_more(limit=0)] leaves no placeholder in the forest. *)
Fixpoint without_more (forest : list comment_node) : list comment_node :=
  match forest with
  | [] => []
  | MoreComments :: rest => without_more rest
  | IsComment c :: rest => IsComment c :: without_more rest
  end.

(** The loop over [submission.comments[:comment_limit]]: a node with a [body]
    gives one record. *)
Fixpoint comment_records (nodes : list comment_node) : list json :=
  match nodes with
  | [] => []
  | IsComment c :: rest => comment_info c :: comment_records rest
  | MoreComments :: rest => comment_records rest
  end.

Definition error_doc (message : string) : json :=
  JObj [("error", JStr message)].

(** ** The four tools *)

(** The document returned when the listing was read. *)
Definition posts_doc (subreddit_name sort_type time_filter : string)
    (post_data : list json) : json :=
  JObj [ ("subreddit", JStr subreddit_name);
         ("sort_type", JStr sort_type);
         ("time_filter", if String.eqb sort_type "top" then JStr time_filter else JNull);
         ("count", JInt (Z.of_nat (List.length post_data)));
         ("posts", JList post_data) ].

(** The [try] block of [get_subreddit_posts]. *)
Definition get_subreddit_posts_body (w : world)
    (subreddit_name sort_type : string) (limit : Z) (time_filter : string)
    : M calls json_text :=
  reddit <- get_reddit_client w ;;
  log (CallSubreddit subreddit_name) ;;;
  sr <- call (subreddit reddit subreddit_name) ;;
  let shape (posts : list Submission) : M calls json_text :=
    ret (json_dumps (Some 2%nat)
           (posts_doc subreddit_name sort_type time_filter (map post_info posts))) in
  if String.eqb sort_type "hot" then
    log (CallHot limit) ;;; posts <- call (hot sr limit) ;; shape posts
  else if String.eqb sort_type "new" then
    log (CallNew limit) ;;; posts <- call (new sr limit) ;; shape posts
  else if String.eqb sort_type "top" then
    log (CallTop time_filter limit) ;;;
    posts <- call (top sr time_filter limit) ;; shape posts
  else if String.eqb sort_type "rising" then
    log (CallRising limit) ;;; posts <- call (rising sr limit) ;; shape posts
  else
    ret (json_dumps None
           (error_doc "Invalid sort_type. Use 'hot', 'new', 'top', or 'rising'")).

(** Defaults: [sort_type="hot"], [limit=10], [time_filter="day"]. *)
Definition get_subreddit_posts (w : world)
    (subreddit_name sort_type : string) (limit : Z) (time_filter : string)
    : M calls json_text :=
  try_except
    (get_subreddit_posts_body w subreddit_name sort_type limit time_filter)
    (fun e => ret (json_dumps None
                     (error_doc ("Failed to fetch posts: " ++ str_exn e)))).

(** The [try] block of [get_post_details]. *)
Definition get_post_details_body (w : world) (id : string)
    (include_comments : bool) (comment_limit : Z) : M calls json_text :=
  reddit <- get_reddit_client w ;;
  log (CallSubmission id) ;;;
  s <- call (submission reddit id) ;;
  let details := post_details s in
  if include_comments then
    log (CallReplaceMore 0) ;;;
    call (post_replace_more s) ;;;
    let comments :=
      comment_records (slice_to comment_limit (without_more (post_comments s))) in
    ret (json_dumps (Some 2%nat) (JObj (details ++ [("comments", JList comments)])))
  else
    ret (json_dumps (Some 2%nat) (JObj details)).

(** Defaults: [include_comments=False], [comment_limit=10]. *)
Definition get_post_details (w : world) (id : string)
    (include_comments : bool) (comment_limit : Z) : M calls json_text :=
  try_except
    (get_post_details_body w id include_comments comment_limit)
    (fun e => ret (json_dumps None
                     (error_doc ("Failed to fetch post details: " ++ str_exn e)))).

(** The document returned by a search. *)
Definition search_doc (query sort time_filter : string) (results : list json)
    : json :=
  JObj [ ("query", JStr query);
         ("sort", JStr sort);
         ("time_filter", JStr time_filter);
         ("count", JInt (Z.of_nat (List.length results)));
         ("results", JList results) ].

(** The [try] block of [search_reddit]. *)
Definition search_reddit_body (w : world) (query sort time_filter : string)
    (limit : Z) : M calls json_text :=
  reddit <- get_reddit_client w ;;
  log (CallSubreddit "all") ;;;
  sr <- call (subreddit reddit "all") ;;
  log (CallSearch query sort time_filter limit) ;;;
  found <- call (search sr query sort time_filter limit) ;;
  ret (json_dumps (Some 2%nat)
         (search_doc query sort time_filter (map result_info found))).

(** Defaults: [sort="relevance"], [time_filter="all"], [limit=10]. *)
Definition search_reddit (w : world) (query sort time_filter : string)
    (limit : Z) : M calls json_text :=
  try_except
    (search_reddit_body w query sort time_filter limit)
    (fun e => ret (json_dumps None (error_doc ("Search failed: " ++ str_exn e)))).

(** The [try] block of [get_subreddit_info]. *)
Definition get_subreddit_info_body (w : world) (subreddit_name : string)
    : M calls json_text :=
  reddit <- get_reddit_client w ;;
  log (CallSubreddit subreddit_name) ;;;
  sr <- call (subreddit reddit subreddit_name) ;;
  a <- call (about sr) ;;
  ret (json_dumps (Some 2%nat) (subreddit_info subreddit_name a)).

Definition get_subreddit_info (w : world) (subreddit_name : string)
    : M calls json_text :=
  try_except
    (get_subreddit_info_body w subreddit_name)
    (fun e => ret (json_dumps None
                     (error_doc ("Failed to fetch subreddit info: " ++ str_exn e)))).

End RedditMCP.

(* ================================================================== *)
(** * bqMCPServer.py: the three tools that read metadata *)
(* ================================================================== *)

Module BigQueryCatalog.
Import Py BigQuery.

Local Open Scope py_scope.

(** A field of a table schema: [name], [field_type], [mode], [description]. *)
Record schema_entry : Type := {
  entry_name : string;
  entry_type : string;
  entry_mode : string;
  entry_description : option string
}.

(** [table.time_partitioning]; the field is [None] for a table partitioned
    by ingestion time. *)
Record partitioning : Type := {
  partition_field : option string;
  partition_type : string
}.

(** A [Table] as [client.get_table] returns it.  The two counts are [None]
    when the service does not report them; the two dates are kept as the text
    that an f-string prints for them. *)
Record table : Type := {
  num_rows : option Z;
  num_bytes : option Z;
  created : string;
  modified : string;
  table_schema : list schema_entry;
  time_partitioning : option partitioning;
  clustering_fields : option (list string)
}.

(** An item of [client.list_tables]. *)
Record table_item : Type := {
  table_id : string;
  table_type : string
}.

(** A [Dataset]; project, location and dates as an f-string prints them. *)
Record dataset : Type := {
  dataset_project : string;
  dataset_location : string;
  dataset_created : string;
  dataset_modified : string;
  dataset_description : option string
}.

(** A row of the statistics query: the count, and the sum, which is NULL
    when there is nothing to add up. *)
Record statistics : Type := {
  table_count : Z;
  total_size_gb : option QArith_base.Q
}.

(** The methods of a client that the three tools call, with the outcome of
    each: the reference built by [client.dataset(...).table(name)] and the
    [get_table] on it; [list(client.list_tables(...))]; [get_table] on a
    listed item; [get_dataset]; and [client.query(query)] with
    [list(query_job.result())]. *)
Record catalog : Type := {
  get_table_named : string -> result table;
  list_dataset_tables : result (list table_item);
  get_listed_table : table_item -> result table;
  get_dataset : result dataset;
  query_statistics : string -> result (list statistics)
}.

(** What formatting [None] with a format specification raises, and what
    dividing [None] raises. *)
Definition none_format : exn :=
  Exception "unsupported format string passed to NoneType.__format__".

Definition none_division : exn :=
  Exception "unsupported operand type(s) for /: 'NoneType' and 'int'".

Section Tools.

(** The catalog methods of a client instance. *)
Variable catalog_of : client -> catalog.

(** [f"{n:,}"] for an [int]. *)
Variable thousands : Z -> string.

(** [f"{n / 1024 / 1024:.2f}"] for an [int]. *)
Variable megabytes : Z -> string.

(** [f"{x:.2f}"] for a [float]. *)
Variable two_decimals : QArith_base.Q -> string.

(** [f"{table.num_rows:,}"] *)
Definition show_rows (n : option Z) : result string :=
  match n with
  | Some k => Return (thousands k)
  | None => Raise none_format
  end.

(** [f"{table.num_bytes / 1024 / 1024:.2f}"] *)
Definition show_size (n : option Z) : result string :=
  match n with
  | Some k => Return (megabytes k)
  | None => Raise none_division
  end.

(** Truth value of a [str] or [None], as a text to append. *)
Definition described (d : option string) : string :=
  match d with
  | Some (String c rest) => " - " ++ String c rest
  | _ => ""
  end.

(** One line of the [Fields:] block. *)
Definition field_line (f : schema_entry) : string :=
  "  - " ++ entry_name f ++ " (" ++ entry_type f ++ ")"
  ++ (if String.eqb (entry_mode f) "NULLABLE" then ""
      else " [" ++ entry_mode f ++ "]")
  ++ described (entry_description f)
  ++ nl.

(** How an f-string prints a [str] or [None]. *)
Definition show_optional (v : option string) : string :=
  match v with
  | Some s => s
  | None => "None"
  end.

Definition partition_line (p : option partitioning) : string :=
  match p with
  | Some tp =>
      nl ++ "Partitioned by: " ++ show_optional (partition_field tp)
      ++ " (" ++ partition_type tp ++ ")" ++ nl
  | None => ""
  end.

(** [', '.join(fields)] under [if table.clustering_fields:] *)
Definition clustering_line (c : option (list string)) : string :=
  match c with
  | Some (f :: fs) => "Clustered by: " ++ String.concat ", " (f :: fs) ++ nl
  | _ => ""
  end.

Definition get_table_schema (w : world) (table_name : string)
    : M process string :=
  client <- get_bigquery_client w ;;
  try_except
    (table <- call (get_table_named (catalog_of client) table_name) ;;
     rows <- call (show_rows (num_rows table)) ;;
     size <- call (show_size (num_bytes table)) ;;
     ret ("Schema for table '" ++ table_name ++ "':" ++ nl ++ nl
          ++ "Total rows: " ++ rows ++ nl
          ++ "Size: " ++ size ++ " MB" ++ nl
          ++ "Created: " ++ created table ++ nl
          ++ "Last modified: " ++ modified table ++ nl ++ nl
          ++ "Fields:" ++ nl
          ++ String.concat "" (map field_line (table_schema table))
          ++ partition_line (time_partitioning table)
          ++ clustering_line (clustering_fields table)))
    (fun e => ret ("Error getting table schema: " ++ str_exn e)).

(** The body of the loop of [list_tables], for the tables still to list. *)
Fixpoint table_blocks (cat : catalog) (items : list table_item)
    : M process string :=
  match items with
  | [] => ret ""
  | item :: rest =>
      table_full <- call (get_listed_table cat item) ;;
      rows <- call (show_rows (num_rows table_full)) ;;
      size <- call (show_size (num_bytes table_full)) ;;
      more <- table_blocks cat rest ;;
      ret ("- " ++ table_id item ++ nl
           ++ "  Type: " ++ table_type item ++ nl
           ++ "  Rows: " ++ rows ++ nl
           ++ "  Size: " ++ size ++ " MB" ++ nl ++ nl
           ++ more)
  end.

Definition list_tables (w : world) : M process string :=
  client <- get_bigquery_client w ;;
  try_except
    (tables <- call (list_dataset_tables (catalog_of client)) ;;
     blocks <- table_blocks (catalog_of client) tables ;;
     ret ("Tables in dataset '" ++ DATASET_ID ++ "':" ++ nl ++ nl
          ++ blocks
          ++ "Total tables: " ++ str_int (Z.of_nat (List.length tables))))
    (fun e => ret ("Error listing tables: " ++ str_exn e)).

(** The statistics query of [get_dataset_info], with its line breaks and
    indentation. *)
Definition statistics_query : string :=
  nl ++ "        SELECT " ++ nl
  ++ "            COUNT(*) as table_count," ++ nl
  ++ "            SUM(size_bytes) / POW(10, 9) as total_size_gb" ++ nl
  ++ "        FROM `" ++ PROJECT_ID ++ "." ++ DATASET_ID ++ ".__TABLES__`" ++ nl
  ++ "        ".

(** [f"{stats['total_size_gb']:.2f}"] *)
Definition show_gigabytes (x : option QArith_base.Q) : result string :=
  match x with
  | Some q => Return (two_decimals q)
  | None => Raise none_format
  end.

(** [dataset.description or 'No description'] *)
Definition description_or_default (d : option string) : string :=
  match d with
  | Some (String c rest) => String c rest
  | _ => "No description"
  end.

Definition get_dataset_info (w : world) : M process string :=
  client <- get_bigquery_client w ;;
  try_except
    (ds <- call (get_dataset (catalog_of client)) ;;
     let response :=
       "Dataset Information for '" ++ DATASET_ID ++ "':" ++ nl ++ nl
       ++ "Project: " ++ dataset_project ds ++ nl
       ++ "Location: " ++ dataset_location ds ++ nl
       ++ "Created: " ++ dataset_created ds ++ nl
       ++ "Modified: " ++ dataset_modified ds ++ nl
       ++ "Description: " ++ description_or_default (dataset_description ds) ++ nl in
     results <- call (query_statistics (catalog_of client) statistics_query) ;;
     match results with
     | stats :: _ =>
         size <- call (show_gigabytes (total_size_gb stats)) ;;
         ret (response ++ nl ++ "Statistics:" ++ nl
              ++ "- Tables: " ++ str_int (table_count stats) ++ nl
              ++ "- Total size: " ++ size ++ " GB" ++ nl)
     | [] => ret response
     end)
    (fun e => ret ("Error getting dataset info: " ++ str_exn e)).

End Tools.

End BigQueryCatalog.

(* ================================================================== *)
(** * The rewriting of table references *)
(* ================================================================== *)

Module RewriteProofs.
Import Py BigQuery.

(** ** Recognizers used to state what the patterns match *)

Fixpoint all_chars (p : ascii -> bool) (s : string) : bool :=
  match s with
  | EmptyString => true
  | String c s' => (p c && all_chars p s')%bool
  end.

(** The last character of [s], or [prev] when [s] is empty. *)
Fixpoint last_char (prev : option ascii) (s : string) : option ascii :=
  match s with
  | EmptyString => prev
  | String c s' => last_char (Some c) s'
  end.

(** [s] and [k] have the same letters up to case. *)
Fixpoint ci_equal (s k : string) : bool :=
  match s, k with
  | EmptyString, EmptyString => true
  | String a s', String b k' => (ci_eqb a b && ci_equal s' k')%bool
  | _, _ => false
  end.

(** [s] begins with the letters of [k], up to case. *)
Fixpoint ci_prefix (k s : string) : bool :=
  match k with
  | EmptyString => true
  | String a k' =>
      match s with
      | String b s' => (ci_eqb b a && ci_prefix k' s')%bool
      | EmptyString => false
      end
  end.

Definition space_at (s : string) : bool :=
  match s with
  | String c _ => is_space c
  | EmptyString => false
  end.

(** A keyword begins here: the position is a word boundary and the text goes
    on with the letters of [k] and a white-space character. *)
Definition keyword_here (k : string) (prev : option ascii) (s : string) : bool :=
  (at_boundary prev s && ci_prefix k s && space_at (drop (String.length k) s))%bool.

(** The text begins the phrase IF EXISTS: the two letters, white space, the
    six letters. *)
Definition begins_if_exists (s : string) : bool :=
  (ci_prefix "IF" s
   && match drop 2 s with
      | String c r => is_space c && ci_prefix "EXISTS" (lstrip r)
      | EmptyString => false
      end)%bool.

Definition is_identifier (t : string) : bool :=
  match t with
  | String c r => (ident_start c && all_chars ident_char r)%bool
  | EmptyString => false
  end.

(** ** Characters *)

Definition is_letter (c : ascii) : bool := (is_upper_az c || is_lower_az c)%bool.

Lemma letter_classes (c : ascii) :
  is_letter c = true ->
  is_word c = true /\ ident_start c = true /\ ident_char c = true
  /\ is_space c = false.
Proof.
  destruct c as [[] [] [] [] [] [] [] []]; vm_compute; intuition congruence.
Qed.



Lemma space_classes (c : ascii) :
  is_space c = true -> is_word c = false /\ ident_start c = false.
Proof.
  destruct c as [[] [] [] [] [] [] [] []]; vm_compute; intuition congruence.
Qed.

Lemma ci_eqb_letter (c x : ascii) :
  is_upper_az x = true -> ci_eqb c x = true -> is_letter c = true.
Proof.
  intros Hx.
  destruct x as [[] [] [] [] [] [] [] []]; try discriminate Hx; clear Hx;
    destruct c as [[] [] [] [] [] [] [] []]; vm_compute; congruence.
Qed.

Lemma ci_eqb_trans_l (a b x : ascii) :
  ci_eqb a b = true -> ci_eqb a x = ci_eqb b x.
Proof.
  unfold ci_eqb. intros H. apply Ascii.eqb_eq in H. now rewrite H.
Qed.

(** ** Strings *)

Lemma append_assoc (a b c : string) : (a ++ b) ++ c = a ++ (b ++ c).
Proof.
  induction a as [|x a IH]; cbn; [reflexivity | now rewrite IH].
Qed.

Lemma append_empty_r (a : string) : a ++ "" = a.
Proof.
  induction a as [|x a IH]; cbn; [reflexivity | now rewrite IH].
Qed.

Lemma length_app (a b : string) :
  String.length (a ++ b) = String.length a + String.length b.
Proof.
  induction a as [|x a IH]; cbn; [reflexivity | now rewrite IH].
Qed.

Lemma take_app_length (a b : string) :
  take (String.length (a ++ b) - String.length b) (a ++ b) = a.
Proof.
  rewrite length_app.
  replace (String.length a + String.length b - String.length b)
    with (String.length a) by lia.
  induction a as [|x a IH]; cbn; [now destruct b | now rewrite IH].
Qed.

Lemma last_char_app (prev : option ascii) (a b : string) :
  last_char prev (a ++ b) = last_char (last_char prev a) b.
Proof.
  revert prev. induction a as [|x a IH]; intros prev; cbn; [reflexivity | apply IH].
Qed.

Lemma head_app (a b : string) : a <> "" -> head (a ++ b) = head a.
Proof.
  destruct a; [congruence | reflexivity].
Qed.

Lemma at_boundary_app (prev : option ascii) (a b : string) :
  a <> "" -> at_boundary prev (a ++ b) = at_boundary prev a.
Proof.
  intros H. unfold at_boundary. now rewrite head_app.
Qed.




Lemma take_app_exact (s rest : string) :
  take (String.length s) (s ++ rest) = s.
Proof.
  induction s as [|a s IH]; cbn; [now destruct rest | now rewrite IH].
Qed.

(** The white space at the front of a text, and what [lstrip] leaves. *)
Fixpoint leading_space (s : string) : string :=
  match s with
  | String c s' => if is_space c then String c (leading_space s') else EmptyString
  | EmptyString => EmptyString
  end.

Lemma leading_space_lstrip (s : string) : leading_space s ++ lstrip s = s.
Proof.
  induction s as [|c s IH]; cbn; [reflexivity|].
  destruct (is_space c); cbn; [now rewrite IH | reflexivity].
Qed.

Lemma leading_space_all (s : string) : all_chars is_space (leading_space s) = true.
Proof.
  induction s as [|c s IH]; cbn; [reflexivity|].
  destruct (is_space c) eqn:Hc; cbn; [now rewrite Hc | reflexivity].
Qed.

Lemma lstrip_no_space (s : string) : space_at (lstrip s) = false.
Proof.
  induction s as [|c s IH]; cbn; [reflexivity|].
  destruct (is_space c) eqn:Hc; [exact IH | cbn; exact Hc].
Qed.

(** ** The matcher on the shapes of the four patterns *)

Lemma rmatch_word (k : string) (R : Type) (prev : option ascii) (s : string)
    (g : option string)
    (K : option ascii -> string -> option string -> option R) :
  rmatch (word k) R prev s g K
  = if ci_prefix k s
    then K (last_char prev (take (String.length k) s)) (drop (String.length k) s) g
    else None.
Proof.
  revert prev s. induction k as [|a k IH]; intros prev s; cbn.
  - now destruct s.
  - destruct s as [|b s]; [reflexivity|].
    destruct (ci_eqb b a); cbn; [apply IH | reflexivity].
Qed.

(** A greedy run over all of [a] ends where [a] ends, when the continuation
    fails on every text that still begins with a character of the class. *)
Lemma rep_run {R : Type} (p : ascii -> bool) (prev : option ascii)
    (a b : string) (K : option ascii -> string -> option R) :
  (forall prev' c s', p c = true -> K prev' (String c s') = None) ->
  all_chars p a = true ->
  match b with String c _ => p c = false | EmptyString => True end ->
  rep p prev (a ++ b) K = K (last_char prev a) b.
Proof.
  intros HK. revert prev. induction a as [|x a IH]; intros prev Ha Hb; cbn.
  - destruct b as [|c b]; cbn; [reflexivity|]. now rewrite Hb.
  - cbn in Ha. apply andb_true_iff in Ha. destruct Ha as [Hx Ha].
    rewrite Hx, (IH (Some x) Ha Hb).
    destruct (K (last_char (Some x) a) b) eqn:HKb; [reflexivity|].
    apply HK, Hx.
Qed.


(** The look-ahead of the TABLE pattern. *)
Lemma lookahead_if_exists (prev : option ascii) (s : string) (g : option string) :
  rmatch if_exists unit prev s g (fun _ _ _ => Some tt)
  = if begins_if_exists s then Some tt else None.
Proof.
  unfold if_exists, begins_if_exists.
  cbn [rmatch]. rewrite rmatch_word.
  destruct (ci_prefix "IF" s); [|reflexivity].
  cbn [andb String.length].
  destruct (drop 2 s) as [|c r]; [reflexivity|].
  destruct (is_space c) eqn:Hc; [|reflexivity].
  cbn [andb].
  rewrite <- (leading_space_lstrip r) at 1.
  rewrite rep_run.
  - rewrite rmatch_word. reflexivity.
  - intros prev' c' s' Hc'. rewrite rmatch_word. cbn.
    destruct (ci_eqb c' "E") eqn:HE; [|reflexivity].
    apply ci_eqb_letter in HE; [|reflexivity].
    apply letter_classes in HE. destruct HE as (_ & _ & _ & HE). congruence.
  - apply leading_space_all.
  - pose proof (lstrip_no_space r) as Hn.
    destruct (lstrip r); [exact I | exact Hn].
Qed.

(** ** The four patterns *)

Definition keywords : list string := ["FROM"; "INTO"; "UPDATE"; "TABLE"].

Definition guard_of (k : string) (r : regex) : regex :=
  if String.eqb k "TABLE" then Cat (NotAhead if_exists) r else r.

(** The pattern of keyword [k], as [patterns] lists it. *)
Definition pattern_of (k : string) : regex :=
  Cat Boundary
    (Cat (word k) (Cat (Plus is_space) (guard_of k (Cat identifier Boundary)))).

Lemma patterns_by_keyword :
  patterns = map (fun k => (pattern_of k, qualify k)) keywords.
Proof. reflexivity. Qed.

Lemma keyword_letters (k : string) :
  In k keywords -> all_chars is_upper_az k = true /\ k <> "".
Proof.
  intros [<-|[<-|[<-|[<-|[]]]]]; split; solve [reflexivity | discriminate].
Qed.


Lemma all_chars_weaken (p q : ascii -> bool) (s : string) :
  (forall c, p c = true -> q c = true) ->
  all_chars p s = true -> all_chars q s = true.
Proof.
  intros Hpq. induction s as [|c s IH]; cbn; [reflexivity|].
  intros H. apply andb_true_iff in H. destruct H as [Hc Hs].
  now rewrite (Hpq c Hc), (IH Hs).
Qed.


(** Where no keyword begins, the pattern does not match. *)
Lemma no_keyword_no_match (k : string) (prev : option ascii) (s : string) :
  keyword_here k prev s = false -> match_at (pattern_of k) prev s = None.
Proof.
  unfold keyword_here, match_at, pattern_of. intros H.
  cbn [rmatch].
  destruct (at_boundary prev s); [|reflexivity].
  rewrite rmatch_word.
  destruct (ci_prefix k s); [|reflexivity].
  cbn in H.
  destruct (drop (String.length k) s) as [|c r]; [reflexivity|].
  cbn in H. now rewrite H.
Qed.

(** What follows the white space of a pattern does not match a text that
    does not begin like an identifier. *)
Lemma no_identifier_no_match (k : string) (R : Type) (prev : option ascii)
    (s : string) (g : option string)
    (K : option ascii -> string -> option string -> option R) :
  match s with String c _ => ident_start c = false | EmptyString => True end ->
  rmatch (guard_of k (Cat identifier Boundary)) R prev s g K = None.
Proof.
  intros Hs. unfold guard_of, identifier.
  destruct (String.eqb k "TABLE"); cbn [rmatch].
  - destruct (rmatch if_exists unit prev s g (fun _ _ _ => Some tt));
      [reflexivity|].
    destruct s as [|c s]; [reflexivity | now rewrite Hs].
  - destruct s as [|c s]; [reflexivity | now rewrite Hs].
Qed.

Lemma no_identifier_on_space (k : string) (R : Type) (prev : option ascii)
    (c : ascii) (s : string) (g : option string)
    (K : option ascii -> string -> option string -> option R) :
  is_space c = true ->
  rmatch (guard_of k (Cat identifier Boundary)) R prev (String c s) g K = None.
Proof.
  intros Hc. apply no_identifier_no_match. now apply space_classes.
Qed.




(** ** Scanning a text with [re_sub_from] *)

(** No match starts anywhere in [a], when [b] follows it. *)
Fixpoint inert (r : regex) (prev : option ascii) (a b : string) : Prop :=
  match a with
  | EmptyString => True
  | String c a' => match_at r prev (a ++ b) = None /\ inert r (Some c) a' b
  end.

Lemma scan_inert (r : regex) (repl : template) (prev : option ascii)
    (a b : string) :
  inert r prev a b ->
  re_sub_from r repl prev (a ++ b) 0
  = a ++ re_sub_from r repl (last_char prev a) b 0.
Proof.
  revert prev. induction a as [|c a IH]; intros prev H; cbn [append last_char].
  - reflexivity.
  - destruct H as [Hnone Hrest]. cbn [re_sub_from].
    change (String c (a ++ b)) with (String c a ++ b).
    rewrite Hnone. f_equal. apply IH, Hrest.
Qed.

Lemma scan_skip (r : regex) (repl : template) (prev : option ascii)
    (a b : string) :
  re_sub_from r repl prev (a ++ b) (String.length a)
  = re_sub_from r repl (last_char prev a) b 0.
Proof.
  revert prev. induction a as [|c a IH]; intros prev; cbn; [reflexivity | apply IH].
Qed.



(** ** Texts in which no keyword begins *)

(** After the white space at the front of the text comes a character that
    cannot begin an identifier. *)
Fixpoint no_identifier_ahead (s : string) : bool :=
  match s with
  | String c s' => if is_space c then no_identifier_ahead s' else negb (ident_start c)
  | EmptyString => false
  end.

(** The text cannot begin a reference of keyword [k], and shows it by a
    character that it holds itself, so whatever comes after it: a letter
    differs from [k], or no white space follows [k], or no identifier follows
    the white space. *)
Fixpoint mismatch (k s : string) : bool :=
  match k, s with
  | String x k', String y s' => if ci_eqb y x then mismatch k' s' else true
  | EmptyString, String y s' => (negb (is_space y) || no_identifier_ahead s')%bool
  | _, EmptyString => false
  end.

(** At no position of [s] does a reference of keyword [k] begin, whatever
    follows [s]. *)
Fixpoint dead (k : string) (prev : option ascii) (s : string) : bool :=
  match s with
  | EmptyString => true
  | String c s' =>
      ((mismatch k s || negb (at_boundary prev s)) && dead k (Some c) s')%bool
  end.


Lemma no_identifier_ahead_split (s : string) :
  no_identifier_ahead s = true ->
  exists (sp : string) (c : ascii) (r : string),
    s = sp ++ String c r /\ all_chars is_space sp = true
    /\ is_space c = false /\ ident_start c = false.
Proof.
  induction s as [|c s IH]; [discriminate|]. cbn.
  destruct (is_space c) eqn:Hc.
  - intros H. destruct (IH H) as (sp & d & r & -> & Hsp & Hd & Hid).
    exists (String c sp), d, r. cbn. rewrite Hc. auto.
  - intros H. apply negb_true_iff in H.
    exists EmptyString, c, s. auto.
Qed.

Lemma mismatch_word (k0 k a b : string) (R : Type) (prev : option ascii)
    (g : option string)
    (K : option ascii -> string -> option string -> option R) :
  mismatch k a = true ->
  rmatch (word k) R prev (a ++ b) g
    (fun prev' s' g' =>
       rmatch (Cat (Plus is_space) (guard_of k0 (Cat identifier Boundary)))
         R prev' s' g' K)
  = None.
Proof.
  revert prev a.
  induction k as [|x k IH]; intros prev [|y a]; try discriminate.
  - cbn [mismatch word rmatch append]. intros H.
    destruct (is_space y) eqn:Hy; [|reflexivity].
    cbn [negb orb] in H.
    destruct (no_identifier_ahead_split a H) as (sp & c & r & -> & Hsp & Hc & Hid).
    rewrite append_assoc. cbn [append].
    rewrite rep_run; [| | exact Hsp | exact Hc].
    + apply no_identifier_no_match. exact Hid.
    + intros prev' c' s' Hc'. apply no_identifier_on_space, Hc'.
  - cbn [mismatch word rmatch append].
    destruct (ci_eqb y x); [|reflexivity].
    intros H. exact (IH (Some y) a H).
Qed.

Lemma mismatch_no_match (k a b : string) (prev : option ascii) :
  mismatch k a = true -> match_at (pattern_of k) prev (a ++ b) = None.
Proof.
  intros H. unfold match_at, pattern_of. cbn [rmatch].
  destruct (at_boundary prev (a ++ b)); [|reflexivity].
  exact (mismatch_word k k a b _ prev None _ H).
Qed.

Lemma dead_inert (k : string) (prev : option ascii) (a b : string) :
  dead k prev a = true -> inert (pattern_of k) prev a b.
Proof.
  revert prev. induction a as [|c a IH]; intros prev H; [exact I|].
  cbn [dead] in H. apply andb_true_iff in H. destruct H as [Hhere Hrest].
  split; [|apply IH, Hrest].
  apply orb_true_iff in Hhere. destruct Hhere as [Hm|Hb].
  - apply mismatch_no_match, Hm.
  - apply no_keyword_no_match. unfold keyword_here.
    rewrite at_boundary_app by discriminate.
    apply negb_true_iff in Hb. now rewrite Hb.
Qed.


Lemma mismatch_nonletter (k : string) (y : ascii) (s : string) :
  all_chars is_upper_az k = true -> k <> "" -> is_letter y = false ->
  mismatch k (String y s) = true.
Proof.
  intros Hk Hne Hy. destruct k as [|x k]; [congruence|].
  cbn in Hk. apply andb_true_iff in Hk. destruct Hk as [Hx _].
  cbn. destruct (ci_eqb y x) eqn:Hyx; [|reflexivity].
  apply ci_eqb_letter in Hyx; [congruence | exact Hx].
Qed.

Lemma dead_nonletters (k : string) (prev : option ascii) (a : string) :
  all_chars is_upper_az k = true -> k <> "" ->
  all_chars (fun c => negb (is_letter c)) a = true -> dead k prev a = true.
Proof.
  intros Hk Hne. revert prev. induction a as [|c a IH]; intros prev Ha; [reflexivity|].
  cbn in Ha. apply andb_true_iff in Ha. destruct Ha as [Hc Ha].
  apply negb_true_iff in Hc.
  cbn [dead]. rewrite (IH (Some c) Ha), andb_true_r.
  now rewrite (mismatch_nonletter k c a Hk Hne Hc).
Qed.

Lemma space_not_letter (c : ascii) : is_space c = true -> is_letter c = false.
Proof.
  intros H. destruct (is_letter c) eqn:Hl; [|reflexivity].
  apply letter_classes in Hl. destruct Hl as (_ & _ & _ & Hl). congruence.
Qed.


Lemma dead_spaces (k : string) (prev : option ascii) (ws : string) :
  In k keywords -> all_chars is_space ws = true -> dead k prev ws = true.
Proof.
  intros Hk Hws. destruct (keyword_letters k Hk) as [Hupper Hne].
  apply dead_nonletters; [exact Hupper | exact Hne |].
  apply (all_chars_weaken is_space); [|exact Hws].
  intros c Hc. now rewrite (space_not_letter c Hc).
Qed.




(** ** An identifier and what follows it *)




(** ** The qualified form of a table reference *)

Definition qualified (K t : string) : string := expand (qualify K) (Some t).




(** ** Statements as plain text and table references *)

(** A table reference: the keyword among the four that it follows, that
    keyword as the statement writes it, the white space after it, and the
    identifier. *)
Record group : Type := {
  keyword : string;
  written : string;
  gap : string;
  table : string
}.

Definition as_written (g : group) : string := written g ++ gap g ++ table g.

(** The exception of the TABLE pattern: the identifier begins the phrase
    IF EXISTS in the text [after] it. *)
Definition excepted (g : group) (after : string) : bool :=
  (String.eqb (keyword g) "TABLE" && begins_if_exists (table g ++ after))%bool.

(** A reference once the substitutions of the keywords in [done] were made. *)
Definition shown (done : list string) (g : group) (after : string) : string :=
  if (existsb (String.eqb (keyword g)) done && negb (excepted g after))%bool
  then qualified (keyword g) (table g)
  else as_written g.

(** References, each followed by plain text. *)
Fixpoint render (done : list string) (l : list (group * string)) : string :=
  match l with
  | [] => EmptyString
  | (g, p) :: l' => shown done g p ++ p ++ render done l'
  end.

(** A statement: plain text, then references each followed by plain text. *)
Definition statement : Type := (string * list (group * string))%type.

Definition text (done : list string) (s : statement) : string :=
  fst s ++ render done (snd s).












(** ** The look-ahead sees no further than the plain text after a reference *)









(** ** One substitution, then the four *)










Lemma four_passes (query : string) :
  fold_left (fun q pr => re_sub (fst pr) (snd pr) q) patterns query
  = re_sub (pattern_of "TABLE") (qualify "TABLE")
      (re_sub (pattern_of "UPDATE") (qualify "UPDATE")
         (re_sub (pattern_of "INTO") (qualify "INTO")
            (re_sub (pattern_of "FROM") (qualify "FROM") query))).
Proof. reflexivity. Qed.




(** ** The rewriting on sample statements

    Each line was compared with what [re.sub] gives for the same text. *)

(** The letter e with an acute accent, a word character outside ASCII. *)
Definition e_acute : string := String (ascii_of_N 233) EmptyString.

(** The unit separator, which [\s] accepts. *)
Definition unit_separator : string := String (ascii_of_N 31) EmptyString.

Example rewrite_keeps_if_exists_with_wide_gaps :
  rewrite_query "drop table  if   exists orders" = "drop table  if   exists orders".
Proof. vm_compute. reflexivity. Qed.

Example rewrite_takes_if_before_not_exists :
  rewrite_query "CREATE TABLE IF NOT EXISTS t (x INT64)"
  = "CREATE TABLE `[Insert your project ID here].[Insert your dataset ID here].IF` NOT EXISTS t (x INT64)".
Proof. vm_compute. reflexivity. Qed.

Example rewrite_update :
  rewrite_query "update t set x = 1"
  = "UPDATE `[Insert your project ID here].[Insert your dataset ID here].t` set x = 1".
Proof. vm_compute. reflexivity. Qed.

Example rewrite_takes_keyword_as_identifier :
  rewrite_query "SELECT * FROM update t"
  = "SELECT * FROM `[Insert your project ID here].[Insert your dataset ID here].update` t".
Proof. vm_compute. reflexivity. Qed.

Example rewrite_stops_at_the_dot :
  rewrite_query "SELECT * FROM ds.t"
  = "SELECT * FROM `[Insert your project ID here].[Insert your dataset ID here].ds`.t".
Proof. vm_compute. reflexivity. Qed.

Example rewrite_needs_a_boundary_after_the_identifier :
  rewrite_query ("FROM caf" ++ e_acute ++ " x") = "FROM caf" ++ e_acute ++ " x".
Proof. vm_compute. reflexivity. Qed.

Example rewrite_accepts_any_white_space :
  rewrite_query ("a FROM" ++ unit_separator ++ "t")
  = "a FROM `[Insert your project ID here].[Insert your dataset ID here].t`".
Proof. vm_compute. reflexivity. Qed.

Example rewrite_keeps_if_exists_without_boundary :
  rewrite_query "DROP TABLE IF EXISTSorders" = "DROP TABLE IF EXISTSorders".
Proof. vm_compute. reflexivity. Qed.

End RewriteProofs.

(* ================================================================== *)
(** * Properties of the BigQuery server *)
(* ================================================================== *)

Module BigQueryProofs.
Import Py BigQuery.

Local Open Scope py_scope.

(** The job configuration of every submission. *)
Definition standard_sql : job_config :=
  {| use_query_cache := true; use_legacy_sql := false |}.

(** The first fault of the [try] block of [query_bigquery] for a client and
    the statement submitted to it, if there is one. *)
Definition execution_fault (c : client) (sql : string) : option exn :=
  match client_query c sql standard_sql with
  | Raise e => Some e
  | Return job =>
      match job_result job with
      | Raise e => Some e
      | Return results =>
          if is_read sql then
            match fetch_rows results with
            | Raise e => Some e
            | Return _ => None
            end
          else None
      end
  end.

(** The fault of acquiring a client when none is cached, if there is one. *)
Definition acquisition_fault (w : world) : option exn :=
  if path_exists w then
    match from_service_account_file w with
    | Raise e => Some e
    | Return creds =>
        match new_client w (Some creds) with
        | Raise e => Some e
        | Return _ => None
        end
    end
  else if truthy (env_credentials w) then
    match new_client w None with
    | Raise e => Some e
    | Return _ => None
    end
  else
    match new_client w None with
    | Raise _ => Some no_authentication
    | Return _ => None
    end.

(** Number of calls of [bigquery.Client] in a trace. *)
Fixpoint clients_built (t : list event) : nat :=
  match t with
  | [] => 0
  | BuiltClient _ :: t' => S (clients_built t')
  | _ :: t' => clients_built t'
  end.

(** A world in which the service-account file is there and loads. *)
Definition sample_client : client :=
  {| client_instance := 1;
     client_query := fun _ _ =>
       Return {| job_result :=
                   Return {| total_rows := Some 0%Z; schema := [];
                             fetch_rows := Return [] |};
                 num_dml_affected_rows := Some (Some 0%Z) |} |}.

Definition sample_world : world :=
  {| path_exists := true;
     from_service_account_file := Return (Credentials "key");
     env_credentials := None;
     new_client := fun _ => Return sample_client |}.

(** A world in which the file is there and cannot be read, while the
    variable is set and a client can be built without explicit credentials. *)
Definition bad_key_world : world :=
  {| path_exists := true;
     from_service_account_file := Raise (Exception "bad key file");
     env_credentials := Some "/etc/key.json";
     new_client := fun _ => Return sample_client |}.

Definition fresh : process := {| _bq_client := None; trace := [] |}.

(** A client whose jobs report three affected rows, cached in a process. *)
Definition dml_client : client :=
  {| client_instance := 2;
     client_query := fun _ _ =>
       Return {| job_result :=
                   Return {| total_rows := None; schema := [];
                             fetch_rows := Return [] |};
                 num_dml_affected_rows := Some (Some 3%Z) |} |}.

(** A client whose submissions fail. *)
Definition failing_client : client :=
  {| client_instance := 3;
     client_query := fun _ _ => Raise (Exception "Syntax error at [1:1]") |}.

Definition serving : process := {| _bq_client := Some dml_client; trace := [] |}.

(** What the [try] block of [query_bigquery] returns for a client and the
    statement submitted to it. *)
Definition response (text_of : json_text -> string) (c : client)
    (sql : string) : string :=
  match client_query c sql standard_sql with
  | Raise e => "Query failed: " ++ str_exn e
  | Return job =>
      match job_result job with
      | Raise e => "Query failed: " ++ str_exn e
      | Return results =>
          if is_read sql then
            match fetch_rows results with
            | Raise e => "Query failed: " ++ str_exn e
            | Return rows =>
                "Query executed successfully. Found "
                ++ show_total (total_rows results) ++ " rows." ++ nl ++ nl
                ++ "Schema:" ++ nl
                ++ String.concat "" (map schema_line (schema results))
                ++ nl ++ "Results:" ++ nl
                ++ text_of (json_dumps (Some 2%nat) (JList (map JObj rows)))
            end
          else
            "Query executed successfully."
            ++ match affected job with
               | Some n => " Affected " ++ str_int n ++ " rows."
               | None => ""
               end
      end
  end.

(** The states the process can be in after some more calls of the tools.
    The three other tools of the server reach the global only by calling
    [get_bigquery_client], so for the cache they are steps of the first
    kind. *)
Inductive later (text_of : json_text -> string)
    : process -> process -> Prop :=
| later_now (st : process) : later text_of st st
| later_acquire (st st' : process) (w : world) :
    later text_of st st' ->
    later text_of st (snd (get_bigquery_client w st'))
| later_query (st st' : process) (w : world) (query : string) :
    later text_of st st' ->
    later text_of st (snd (query_bigquery text_of w query st')).

Section Acquisition.

Lemma cached_client_is_returned (w : world) (st : process) (c : client) :
  _bq_client st = Some c -> get_bigquery_client w st = (Return c, st).
Proof.
  intros H. unfold get_bigquery_client, bind, get. rewrite H. reflexivity.
Qed.

Lemma acquisition_outcome (w : world) (st : process) :
  _bq_client st = None ->
  match get_bigquery_client w st with
  | (Return c, st1) =>
      acquisition_fault w = None
      /\ _bq_client st1 = Some c
      /\ clients_built (trace st1) = S (clients_built (trace st))
  | (Raise e, st1) =>
      acquisition_fault w = Some e /\ _bq_client st1 = None
  end.
Proof.
  intros H.
  unfold get_bigquery_client, acquisition_fault, bind, get, try_except, call,
    log, set_bq_client, modify, ret, raise.
  rewrite H.
  destruct (path_exists w).
  - destruct (from_service_account_file w) as [creds|e]; cbn.
    + destruct (new_client w (Some creds)) as [c|e]; cbn; auto.
    + auto.
  - destruct (truthy (env_credentials w)).
    + destruct (new_client w None) as [c|e]; cbn; auto.
    + destruct (new_client w None) as [c|e]; cbn; auto.
Qed.

End Acquisition.

Section Query.

Variable text_of : json_text -> string.

Lemma query_bigquery_with_client (w : world) (query : string)
    (st st1 : process) (c : client) :
  get_bigquery_client w st = (Return c, st1) ->
  query_bigquery text_of w query st
  = (Return (response text_of c (rewrite_query query)),
     {| _bq_client := _bq_client st1;
        trace := Submitted (rewrite_query query) standard_sql :: trace st1 |}).
Proof.
  intros H. unfold query_bigquery, response, bind at 1. rewrite H.
  unfold try_except, bind, log, modify, call, ret, standard_sql. cbn.
  destruct (client_query c (rewrite_query query) _) as [job|e]; [|reflexivity].
  destruct (job_result job) as [results|e]; [|reflexivity].
  destruct (is_read (rewrite_query query)); [|reflexivity].
  destruct (fetch_rows results) as [rows|e]; reflexivity.
Qed.

Lemma query_bigquery_without_client (w : world) (query : string)
    (st st1 : process) (e : exn) :
  get_bigquery_client w st = (Raise e, st1) ->
  query_bigquery text_of w query st = (Raise e, st1).
Proof.
  intros H. unfold query_bigquery, bind at 1. rewrite H. reflexivity.
Qed.

Lemma later_keeps_client (st1 st2 : process) (c : client) (n : nat) :
  _bq_client st1 = Some c ->
  clients_built (trace st1) = n ->
  later text_of st1 st2 ->
  _bq_client st2 = Some c /\ clients_built (trace st2) = n.
Proof.
  intros Hc Hn Hl. induction Hl as [st|st st' w Hl IH|st st' w q Hl IH].
  - auto.
  - destruct (IH Hc Hn) as [Hc' Hn'].
    rewrite (cached_client_is_returned w st' c Hc'). auto.
  - destruct (IH Hc Hn) as [Hc' Hn'].
    rewrite (query_bigquery_with_client w q st' st' c
               (cached_client_is_returned w st' c Hc')).
    cbn. auto.
Qed.

End Query.

(** C6: once a call of [get_bigquery_client] has succeeded from an empty
    cache, the handle it stored stays in the cache through every later call of
    the tools, every later acquisition returns that same client and leaves the
    process as it was, and [bigquery.Client] has been called exactly once in
    all. *)
Theorem C6_client_is_memoized
    (text_of : json_text -> string)
    (w1 w2 : world) (st st1 st2 : process) (c : client) :
  _bq_client st = None ->
  get_bigquery_client w1 st = (Return c, st1) ->
  later text_of st1 st2 ->
  get_bigquery_client w2 st2 = (Return c, st2)
  /\ _bq_client st2 = Some c
  /\ clients_built (trace (snd (get_bigquery_client w2 st2)))
     = S (clients_built (trace st)).
Proof.
  intros Hnone Hfirst Hlater.
  pose proof (acquisition_outcome w1 st Hnone) as Hout.
  rewrite Hfirst in Hout. destruct Hout as (_ & Hc & Hn).
  destruct (later_keeps_client text_of st1 st2 c _ Hc Hn Hlater) as [Hc2 Hn2].
  rewrite (cached_client_is_returned w2 st2 c Hc2). cbn. auto.
Qed.

Lemma C6_witness :
  get_bigquery_client bad_key_world
    (snd (query_bigquery (fun _ => "") sample_world "SELECT 1"
            (snd (get_bigquery_client sample_world fresh))))
  = (Return sample_client,
     snd (query_bigquery (fun _ => "") sample_world "SELECT 1"
            (snd (get_bigquery_client sample_world fresh))))
  /\ clients_built
       (trace (snd (get_bigquery_client bad_key_world
          (snd (query_bigquery (fun _ => "") sample_world "SELECT 1"
             (snd (get_bigquery_client sample_world fresh)))))))
     = 1.
Proof.
  pose proof (C6_client_is_memoized (fun _ => "") sample_world bad_key_world
                fresh (snd (get_bigquery_client sample_world fresh))
                (snd (query_bigquery (fun _ => "") sample_world "SELECT 1"
                        (snd (get_bigquery_client sample_world fresh))))
                sample_client eq_refl eq_refl
                (later_query _ _ _ sample_world "SELECT 1" (later_now _ _)))
    as (H1 & _ & H3).
  split; [exact H1 | exact H3].
Defined.

(** C2: a statement that already holds the text [PROJECT_ID.DATASET_ID] is
    not rewritten, and the statement handed to [client.query] is the one that
    was passed in. *)
Theorem C2_qualified_statement_is_submitted_unchanged
    (text_of : json_text -> string)
    (w : world) (query : string) (st st1 : process) (c : client) :
  contains qualified_prefix query = true ->
  get_bigquery_client w st = (Return c, st1) ->
  rewrite_query query = query
  /\ trace (snd (query_bigquery text_of w query st))
     = Submitted query standard_sql :: trace st1.
Proof.
  intros Hin Hc.
  assert (Hrw : rewrite_query query = query).
  { unfold rewrite_query. rewrite Hin. reflexivity. }
  split; [exact Hrw|].
  rewrite (query_bigquery_with_client text_of w query st st1 c Hc).
  rewrite Hrw. reflexivity.
Qed.

Lemma C2_witness :
  rewrite_query
    "SELECT * FROM `[Insert your project ID here].[Insert your dataset ID here].orders`"
  = "SELECT * FROM `[Insert your project ID here].[Insert your dataset ID here].orders`"
  /\ trace (snd (query_bigquery (fun _ => "") sample_world
       "SELECT * FROM `[Insert your project ID here].[Insert your dataset ID here].orders`"
       fresh))
     = Submitted
         "SELECT * FROM `[Insert your project ID here].[Insert your dataset ID here].orders`"
         standard_sql
       :: trace (snd (get_bigquery_client sample_world fresh)).
Proof.
  apply (C2_qualified_statement_is_submitted_unchanged (fun _ => "")
           sample_world _ fresh (snd (get_bigquery_client sample_world fresh))
           sample_client).
  - vm_compute. reflexivity.
  - reflexivity.
Defined.

(** C3, the claim as stated fails: a statement that is not a read and whose
    job reports zero affected rows is answered without any count, although
    the count is there. *)
Lemma C3_zero_count_is_not_reported :
  ~ (forall (text_of : json_text -> string) (w : world)
            (query : string) (st st1 : process) (c : client)
            (job : query_job) (results : row_iterator) (n : Z),
        get_bigquery_client w st = (Return c, st1) ->
        client_query c (rewrite_query query) standard_sql = Return job ->
        job_result job = Return results ->
        is_read (rewrite_query query) = false ->
        num_dml_affected_rows job = Some (Some n) ->
        fst (query_bigquery text_of w query st)
        = Return ("Query executed successfully."
                  ++ " Affected " ++ str_int n ++ " rows.")).
Proof.
  intros H.
  specialize (H (fun _ => "") sample_world "DELETE FROM orders WHERE FALSE"
                fresh (snd (get_bigquery_client sample_world fresh))
                sample_client _ _ 0%Z eq_refl eq_refl eq_refl eq_refl eq_refl).
  vm_compute in H. discriminate H.
Qed.

(** C3, amended: for a statement that was executed without a fault, the
    answer is chosen by the start of the submitted statement, upper-cased and
    stripped.  When it starts with SELECT or WITH the answer holds the row
    count, one line per field of the schema with its name and type, and the
    rows as a JSON list of mappings.  Otherwise it is the acknowledgment alone,
    followed by the number of affected rows when the job has one that is not
    zero; nothing of the schema is in it. *)
Theorem C3_response_shape
    (text_of : json_text -> string)
    (w : world) (query : string) (st st1 : process) (c : client)
    (job : query_job) (results : row_iterator) :
  get_bigquery_client w st = (Return c, st1) ->
  client_query c (rewrite_query query) standard_sql = Return job ->
  job_result job = Return results ->
  (is_read (rewrite_query query) = true ->
   forall rows : list row,
     fetch_rows results = Return rows ->
     fst (query_bigquery text_of w query st)
     = Return ("Query executed successfully. Found "
               ++ show_total (total_rows results) ++ " rows." ++ nl ++ nl
               ++ "Schema:" ++ nl
               ++ String.concat "" (map schema_line (schema results))
               ++ nl ++ "Results:" ++ nl
               ++ text_of (json_dumps (Some 2%nat) (JList (map JObj rows)))))
  /\ (is_read (rewrite_query query) = false ->
      fst (query_bigquery text_of w query st)
      = Return ("Query executed successfully."
                ++ match num_dml_affected_rows job with
                   | Some (Some n) =>
                       if (n =? 0)%Z then ""
                       else " Affected " ++ str_int n ++ " rows."
                   | _ => ""
                   end)).
Proof.
  intros Hc Hjob Hres.
  rewrite (query_bigquery_with_client text_of w query st st1 c Hc).
  unfold response, affected. rewrite Hjob, Hres. cbn [fst].
  split.
  - intros Hread rows Hrows. rewrite Hread, Hrows. reflexivity.
  - intros Hread. rewrite Hread.
    destruct (num_dml_affected_rows job) as [[n|]|]; try reflexivity.
    destruct (n =? 0)%Z; reflexivity.
Qed.

Lemma C3_witness :
  fst (query_bigquery (fun _ => "") sample_world "UPDATE orders SET x = 1" serving)
  = Return "Query executed successfully. Affected 3 rows.".
Proof.
  refine (proj2 (C3_response_shape (fun _ => "") sample_world
                   "UPDATE orders SET x = 1" serving serving dml_client
                   _ _ eq_refl eq_refl eq_refl) _).
  vm_compute. reflexivity.
Defined.

(** C7, the claim as stated fails: a fault reaches the caller although the
    credential variable is set and a client can be built from the ambient
    credentials; it is enough that the service-account file is there and
    cannot be loaded. *)
Lemma C7_fault_with_strategies_left :
  ~ (forall (text_of : json_text -> string) (w : world)
            (query : string) (st : process) (e : exn),
        fst (query_bigquery text_of w query st) = Raise e ->
        path_exists w = false
        /\ truthy (env_credentials w) = false
        /\ exists e', new_client w None = Raise e').
Proof.
  intros H.
  destruct (H (fun _ => "") bad_key_world "SELECT 1" fresh
              (Exception "bad key file") eq_refl) as [Hpath _].
  discriminate Hpath.
Qed.

(** C7, amended: a fault of the [try] block of [query_bigquery], whether
    raised when the statement is submitted, when the result is awaited or when
    the rows are read, is returned as the text [Query failed: ] followed by
    the text of the fault, and is never raised.  A fault reaches the caller
    exactly when no client is cached and acquiring one fails: the fault of
    loading the service-account file or of building the client from it or from
    the credential variable is raised as it is, and when neither is present
    and the ambient credentials fail the fault [No authentication found] is
    raised. *)
Theorem C7_execution_faults_are_reported
    (text_of : json_text -> string)
    (w : world) (query : string) (st : process) :
  match get_bigquery_client w st with
  | (Return c, _) =>
      (exists text : string,
          fst (query_bigquery text_of w query st) = Return text)
      /\ (forall e : exn,
             execution_fault c (rewrite_query query) = Some e ->
             fst (query_bigquery text_of w query st)
             = Return ("Query failed: " ++ str_exn e))
  | (Raise e, _) =>
      fst (query_bigquery text_of w query st) = Raise e
      /\ _bq_client st = None
      /\ acquisition_fault w = Some e
  end.
Proof.
  destruct (get_bigquery_client w st) as [[c|e] st1] eqn:Hacq.
  - rewrite (query_bigquery_with_client text_of w query st st1 c Hacq).
    cbn [fst]. split; [eexists; reflexivity|].
    intros e. unfold execution_fault, response.
    destruct (client_query c (rewrite_query query) standard_sql) as [job|e1].
    + destruct (job_result job) as [results|e2].
      * destruct (is_read (rewrite_query query)).
        -- destruct (fetch_rows results) as [rows|e3].
           ++ discriminate.
           ++ intros [= ->]. reflexivity.
        -- discriminate.
      * intros [= ->]. reflexivity.
    + intros [= ->]. reflexivity.
  - rewrite (query_bigquery_without_client text_of w query st st1 e Hacq).
    cbn [fst]. split; [reflexivity|].
    destruct (_bq_client st) as [c|] eqn:Hcache.
    + rewrite (cached_client_is_returned w st c Hcache) in Hacq. discriminate.
    + split; [reflexivity|].
      pose proof (acquisition_outcome w st Hcache) as Hout.
      rewrite Hacq in Hout. apply Hout.
Qed.

Lemma C7_witness :
  fst (query_bigquery (fun _ => "") sample_world "SELEC 1"
         {| _bq_client := Some failing_client; trace := [] |})
  = Return "Query failed: Syntax error at [1:1]".
Proof.
  exact (proj2 (C7_execution_faults_are_reported (fun _ => "") sample_world
                  "SELEC 1" {| _bq_client := Some failing_client; trace := [] |})
               (Exception "Syntax error at [1:1]") eq_refl).
Defined.

End BigQueryProofs.

(* ================================================================== *)
(** * Properties of the Reddit server *)
(* ================================================================== *)

Module RedditProofs.
Import Py RedditMCP.

Local Open Scope py_scope.

(** The fault a call ended with, if it did. *)
Definition fault_of {A : Type} (r : result A) : option exn :=
  match r with
  | Raise e => Some e
  | Return _ => None
  end.

(** The first fault that the client raises during each tool, read off the
    world in the order of the calls. *)
Definition posts_fault (w : world) (subreddit_name sort_type : string)
    (limit : Z) (time_filter : string) : option exn :=
  match new_reddit w with
  | Raise e => Some e
  | Return reddit =>
      match subreddit reddit subreddit_name with
      | Raise e => Some e
      | Return sr =>
          if String.eqb sort_type "hot" then fault_of (hot sr limit)
          else if String.eqb sort_type "new" then fault_of (new sr limit)
          else if String.eqb sort_type "top" then fault_of (top sr time_filter limit)
          else if String.eqb sort_type "rising" then fault_of (rising sr limit)
          else None
      end
  end.

Definition details_fault (w : world) (id : string) (include_comments : bool)
    : option exn :=
  match new_reddit w with
  | Raise e => Some e
  | Return reddit =>
      match submission reddit id with
      | Raise e => Some e
      | Return s => if include_comments then fault_of (post_replace_more s) else None
      end
  end.

Definition search_fault (w : world) (query sort time_filter : string)
    (limit : Z) : option exn :=
  match new_reddit w with
  | Raise e => Some e
  | Return reddit =>
      match subreddit reddit "all" with
      | Raise e => Some e
      | Return sr => fault_of (search sr query sort time_filter limit)
      end
  end.

Definition info_fault (w : world) (subreddit_name : string) : option exn :=
  match new_reddit w with
  | Raise e => Some e
  | Return reddit =>
      match subreddit reddit subreddit_name with
      | Raise e => Some e
      | Return sr => fault_of (about sr)
      end
  end.

(** ** Sample data *)

Definition comment_by (name body : string) : Comment :=
  {| comment_id := "c1"; comment_author := Some name; comment_body := body;
     comment_score := 1; comment_created_utc := QArith_base.Qmake 0 1;
     comment_is_submitter := false; comment_stickied := false;
     comment_gilded := 0 |}.

Definition post_with (selftext : string) (forest : list comment_node)
    (more : result unit) : Submission :=
  {| post_id := "abc"; post_title := "A post"; post_author := None;
     post_subreddit := "python"; post_score := 7;
     post_upvote_ratio := QArith_base.Qmake 9 10; post_num_comments := 3;
     post_created_utc := QArith_base.Qmake 0 1; post_url := "https://example.org";
     post_permalink := "/r/python/comments/abc"; post_selftext := selftext;
     post_is_self := true; post_over_18 := false; post_spoiler := false;
     post_stickied := false; post_link_flair_text := None; post_gilded := 0;
     post_distinguished := None; post_comments := forest;
     post_replace_more := more |}.

Definition three_comments : list comment_node :=
  [ IsComment (comment_by "ann" "first"); MoreComments;
    IsComment (comment_by "bob" "second"); IsComment (comment_by "cy" "third") ].

Definition sample_post : Submission :=
  post_with "wait..." three_comments (Return tt).

(** A self-text of six hundred characters. *)
Definition long_text : string := string_of_list_ascii (repeat "a"%char 600).

Definition sample_subreddit : Subreddit :=
  {| hot := fun _ => Return [sample_post; sample_post];
     new := fun _ => Return [sample_post];
     top := fun _ _ => Return [];
     rising := fun _ => Raise (Exception "received 429 HTTP response");
     search := fun _ _ _ _ => Return [sample_post];
     about := Raise (Exception "received 404 HTTP response") |}.

Definition sample_reddit : world :=
  {| new_reddit :=
       Return {| subreddit := fun _ => Return sample_subreddit;
                 submission := fun id =>
                   if String.eqb id "abc" then Return sample_post
                   else if String.eqb id "long" then
                     Return (post_with long_text [] (Return tt))
                   else Raise (Exception "received 404 HTTP response") |} |}.

(** ** Strings *)

Lemma length_append (s t : string) :
  String.length (s ++ t) = String.length s + String.length t.
Proof.
  induction s as [|c s IH]; cbn; [reflexivity | now rewrite IH].
Qed.

Lemma length_take (n : nat) (s : string) :
  String.length (take n s) = Nat.min n (String.length s).
Proof.
  revert s. induction n as [|n IH]; intros [|c s]; cbn; auto.
Qed.

Lemma take_drop (n : nat) (s : string) : take n s ++ drop n s = s.
Proof.
  revert s. induction n as [|n IH]; intros [|c s]; cbn; auto.
  now rewrite IH.
Qed.

Lemma drop_length_append (s t : string) : drop (String.length s) (s ++ t) = t.
Proof.
  induction s as [|c s IH]; cbn; [now destruct t | exact IH].
Qed.

Lemma endswith_append (s t : string) : endswith t (s ++ t) = true.
Proof.
  unfold endswith. rewrite length_append.
  replace (String.length s + String.length t - String.length t)
    with (String.length s) by lia.
  rewrite drop_length_append, String.eqb_refl.
  apply andb_true_iff. split; [apply Nat.leb_le; lia | reflexivity].
Qed.

Lemma truncated_long (limit : nat) (text : string) :
  limit < String.length text -> truncated limit text = take limit text ++ "...".
Proof.
  intros H. unfold truncated.
  destruct (Nat.ltb_spec limit (String.length text)); [reflexivity | lia].
Qed.

Lemma truncated_short (limit : nat) (text : string) :
  String.length text <= limit -> truncated limit text = text.
Proof.
  intros H. unfold truncated.
  destruct (Nat.ltb_spec limit (String.length text)); [lia | reflexivity].
Qed.

Lemma truncated_length (limit : nat) (text : string) :
  String.length (truncated limit text) <= limit + 3.
Proof.
  destruct (Nat.le_gt_cases (String.length text) limit) as [H|H].
  - rewrite truncated_short by exact H. lia.
  - rewrite truncated_long by exact H.
    rewrite length_append, length_take. cbn. lia.
Qed.

(** ** Lists of comments *)

Lemma comment_records_length (nodes : list comment_node) :
  List.length (comment_records nodes) <= List.length nodes.
Proof.
  induction nodes as [|[c|] nodes IH]; cbn; lia.
Qed.

Lemma slice_to_length {A : Type} (n : Z) (l : list A) :
  (0 <= n)%Z -> (Z.of_nat (List.length (slice_to n l)) <= n)%Z.
Proof.
  intros H. unfold slice_to.
  destruct (Z.leb_spec 0 n); [|lia].
  pose proof (firstn_le_length (Z.to_nat n) l). lia.
Qed.

Lemma without_more_has_no_placeholder (forest : list comment_node) :
  ~ In MoreComments (without_more forest).
Proof.
  induction forest as [|[c|] forest IH]; cbn; [tauto | | exact IH].
  intros [H|H]; [discriminate | tauto].
Qed.

Lemma firstn_incl {A : Type} (n : nat) (l : list A) (x : A) :
  In x (firstn n l) -> In x l.
Proof.
  revert l. induction n as [|n IH]; intros [|y l]; cbn; try tauto.
  intros [H|H]; auto.
Qed.

Lemma slice_to_incl {A : Type} (n : Z) (l : list A) (x : A) :
  In x (slice_to n l) -> In x l.
Proof.
  unfold slice_to. destruct (0 <=? n)%Z; apply firstn_incl.
Qed.

Lemma comment_records_of_comments (nodes : list comment_node) :
  ~ In MoreComments nodes ->
  List.length (comment_records nodes) = List.length nodes.
Proof.
  induction nodes as [|[c|] nodes IH]; cbn; intros H.
  - reflexivity.
  - rewrite IH; [reflexivity | tauto].
  - tauto.
Qed.

(** ** Running the tools *)

Ltac run_tool :=
  unfold get_subreddit_posts, get_subreddit_posts_body,
    get_post_details, get_post_details_body,
    search_reddit, search_reddit_body,
    get_subreddit_info, get_subreddit_info_body,
    get_reddit_client, log, try_except, bind, call, modify, ret.

Ltac case_call :=
  match goal with
  | |- context [match ?r with Return _ => _ | Raise _ => _ end] =>
      destruct r eqn:?
  | |- context [let (_, _) := ?p in _] => destruct p eqn:?
  end.

(** C4, the claim as stated fails twice: a text within the limit that itself
    ends with three dots is returned as it is, so the suffix is there though
    nothing was cut; and [get_post_details] returns the self-text whole,
    however long it is. *)
Lemma C4_suffix_without_cut_and_uncut_details :
  ~ (forall (limit : nat) (text : string),
        endswith "..." (truncated limit text) = true
        <-> limit < String.length text)
  /\ ~ (forall (w : world) (id : string) (st : calls) (t : json_text) (text : string),
          fst (get_post_details w id false 10 st) = Return t ->
          field "selftext" (document t) = Some (JStr text) ->
          String.length text <= 500 + 3).
Proof.
  split.
  - intros H. destruct (H 500 "wait...") as [H1 _].
    specialize (H1 eq_refl). cbn in H1. lia.
  - intros H.
    specialize (H sample_reddit "long" [] _ long_text eq_refl eq_refl).
    vm_compute in H. lia.
Qed.

(** C4, amended: the self-text of a listed post (limit 500), the body of a
    comment (300), the self-text of a search result (200) and the description
    of a subreddit (500) are returned through one transformation.  Its output
    is never longer than the limit plus three; a text longer than the limit
    becomes its first [limit] characters followed by three dots, and so ends
    with them; a text within the limit is returned unchanged, so it ends with
    three dots only when it did before.  The self-text of [get_post_details]
    is not cut: it is returned whole. *)
Theorem C4_truncation
    (limit : nat) (text : string)
    (post : Submission) (c : Comment) (a : subreddit_about) (name : string) :
  String.length (truncated limit text) <= limit + 3
  /\ (limit < String.length text ->
      truncated limit text = take limit text ++ "..."
      /\ endswith "..." (truncated limit text) = true)
  /\ (String.length text <= limit -> truncated limit text = text)
  /\ field "selftext" (post_info post)
     = Some (JStr (truncated 500 (post_selftext post)))
  /\ field "body" (comment_info c)
     = Some (JStr (truncated 300 (comment_body c)))
  /\ field "selftext" (result_info post)
     = Some (JStr (truncated 200 (post_selftext post)))
  /\ field "description" (subreddit_info name a)
     = Some (JStr (truncated 500 (sr_description a)))
  /\ field "selftext" (JObj (post_details post))
     = Some (JStr (post_selftext post)).
Proof.
  split; [apply truncated_length|].
  split.
  { intros H. rewrite (truncated_long limit text H).
    split; [reflexivity | apply endswith_append]. }
  split; [apply truncated_short|].
  repeat split.
Qed.

Lemma C4_witness :
  truncated 5 "abcdefgh" = "abcde..." /\ truncated 8 "abcdefgh" = "abcdefgh".
Proof.
  pose proof (C4_truncation 5 "abcdefgh" sample_post (comment_by "ann" "x")
                {| sr_display_name := "python"; sr_title := "Python";
                   sr_description := "News"; sr_subscribers := 1;
                   sr_active_user_count := None;
                   sr_created_utc := QArith_base.Qmake 0 1; sr_over18 := false;
                   sr_public_description := ""; sr_subreddit_type := "public";
                   sr_lang := "en" |} "python") as (_ & Hlong & _).
  pose proof (C4_truncation 8 "abcdefgh" sample_post (comment_by "ann" "x")
                {| sr_display_name := "python"; sr_title := "Python";
                   sr_description := "News"; sr_subscribers := 1;
                   sr_active_user_count := None;
                   sr_created_utc := QArith_base.Qmake 0 1; sr_over18 := false;
                   sr_public_description := ""; sr_subreddit_type := "public";
                   sr_lang := "en" |} "python") as (_ & _ & Hshort & _).
  split.
  - apply Hlong. cbn. lia.
  - apply Hshort. cbn. lia.
Defined.

(** C5, the claim as stated fails: with a sort type outside the four, the
    subreddit is still looked up on the client before the sort type is
    tested. *)
Lemma C5_subreddit_is_looked_up_first :
  ~ (forall (w : world) (subreddit_name sort_type : string) (limit : Z)
            (time_filter : string) (st : calls),
        sort_type <> "hot" -> sort_type <> "new" ->
        sort_type <> "top" -> sort_type <> "rising" ->
        snd (get_subreddit_posts w subreddit_name sort_type limit time_filter st)
        = st).
Proof.
  intros H.
  specialize (H sample_reddit "python" "best" 10%Z "day" []).
  cbn in H.
  assert (Hcalls : [CallSubreddit "python"] = @nil client_call)
    by (apply H; discriminate).
  discriminate Hcalls.
Qed.

(** C5, amended: with a sort type outside hot, new, top and rising the tool
    returns an error object and asks the client for no listing.  The one call
    it makes on the client is the lookup of the subreddit, which comes before
    the test of the sort type; when the client is built and the lookup
    returns, the error is the one about the sort type. *)
Theorem C5_invalid_sort_type
    (w : world) (subreddit_name sort_type : string) (limit : Z)
    (time_filter : string) (st : calls) :
  sort_type <> "hot" -> sort_type <> "new" ->
  sort_type <> "top" -> sort_type <> "rising" ->
  (exists message : string,
      fst (get_subreddit_posts w subreddit_name sort_type limit time_filter st)
      = Return (json_dumps None (error_doc message)))
  /\ (snd (get_subreddit_posts w subreddit_name sort_type limit time_filter st) = st
      \/ snd (get_subreddit_posts w subreddit_name sort_type limit time_filter st)
         = CallSubreddit subreddit_name :: st)
  /\ (forall (reddit : Reddit) (sr : Subreddit),
         new_reddit w = Return reddit ->
         subreddit reddit subreddit_name = Return sr ->
         get_subreddit_posts w subreddit_name sort_type limit time_filter st
         = (Return (json_dumps None
              (error_doc "Invalid sort_type. Use 'hot', 'new', 'top', or 'rising'")),
            CallSubreddit subreddit_name :: st)).
Proof.
  intros Hhot Hnew Htop Hrising.
  apply String.eqb_neq in Hhot, Hnew, Htop, Hrising.
  run_tool. cbn. rewrite Hhot, Hnew, Htop, Hrising.
  destruct (new_reddit w) as [reddit|e]; cbn.
  - destruct (subreddit reddit subreddit_name) as [sr|e] eqn:Hlookup; cbn.
    + split; [eexists; reflexivity|]. split; [right; reflexivity|].
      intros reddit' sr' [= <-] Hsr. reflexivity.
    + split; [eexists; reflexivity|]. split; [right; reflexivity|].
      intros reddit' sr' [= <-] Hsr. rewrite Hlookup in Hsr. discriminate.
  - split; [eexists; reflexivity|]. split; [left; reflexivity|].
    intros reddit' sr' Hr. discriminate.
Qed.

Lemma C5_witness :
  get_subreddit_posts sample_reddit "python" "best" 10 "day" []
  = (Return (json_dumps None
       (error_doc "Invalid sort_type. Use 'hot', 'new', 'top', or 'rising'")),
     [CallSubreddit "python"]).
Proof.
  refine (proj2 (proj2 (C5_invalid_sort_type sample_reddit "python" "best" 10
                          "day" [] _ _ _ _)) _ sample_subreddit eq_refl eq_refl);
    discriminate.
Defined.

(** Closes a goal whose fault is the one met: the answer is the error
    object, read through its [error] member. *)
Ltac error_member :=
  intros [= ->]; eexists; split; reflexivity.

(** C8: none of the four tools raises, whatever the client does; and when
    the client raises a fault during a tool, the tool returns an object whose
    [error] member is the tool's prefix followed by the text of that fault. *)
Theorem C8_client_faults_become_error_objects
    (w : world) (st : calls) (e : exn)
    (name sort_type time_filter id query sort : string)
    (limit comment_limit : Z) (include_comments : bool) :
  ((exists t, fst (get_subreddit_posts w name sort_type limit time_filter st) = Return t)
   /\ (exists t, fst (get_post_details w id include_comments comment_limit st) = Return t)
   /\ (exists t, fst (search_reddit w query sort time_filter limit st) = Return t)
   /\ (exists t, fst (get_subreddit_info w name st) = Return t))
  /\ (posts_fault w name sort_type limit time_filter = Some e ->
      exists t,
        fst (get_subreddit_posts w name sort_type limit time_filter st) = Return t
        /\ field "error" (document t)
           = Some (JStr ("Failed to fetch posts: " ++ str_exn e)))
  /\ (details_fault w id include_comments = Some e ->
      exists t,
        fst (get_post_details w id include_comments comment_limit st) = Return t
        /\ field "error" (document t)
           = Some (JStr ("Failed to fetch post details: " ++ str_exn e)))
  /\ (search_fault w query sort time_filter limit = Some e ->
      exists t,
        fst (search_reddit w query sort time_filter limit st) = Return t
        /\ field "error" (document t)
           = Some (JStr ("Search failed: " ++ str_exn e)))
  /\ (info_fault w name = Some e ->
      exists t,
        fst (get_subreddit_info w name st) = Return t
        /\ field "error" (document t)
           = Some (JStr ("Failed to fetch subreddit info: " ++ str_exn e))).
Proof.
  unfold posts_fault, details_fault, search_fault, info_fault, fault_of.
  run_tool. cbn.
  destruct (new_reddit w) as [reddit|e0]; cbn.
  - split; [|split; [|split; [|split]]].
    + repeat split.
      * destruct (subreddit reddit name); cbn; [|eexists; reflexivity].
        repeat (destruct (String.eqb sort_type _); cbn;
                [case_call; cbn; eexists; reflexivity|]).
        eexists; reflexivity.
      * destruct (submission reddit id) as [s|]; cbn; [|eexists; reflexivity].
        destruct include_comments; cbn; [|eexists; reflexivity].
        destruct (post_replace_more s); cbn; eexists; reflexivity.
      * destruct (subreddit reddit "all") as [sr|]; cbn; [|eexists; reflexivity].
        destruct (search sr query sort time_filter limit); cbn; eexists; reflexivity.
      * destruct (subreddit reddit name) as [sr|]; cbn; [|eexists; reflexivity].
        destruct (about sr); cbn; eexists; reflexivity.
    + destruct (subreddit reddit name) as [sr|e1]; cbn.
      * repeat (destruct (String.eqb sort_type _); cbn;
                [case_call; cbn; [discriminate | error_member]|]).
        discriminate.
      * error_member.
    + destruct (submission reddit id) as [s|e1]; cbn; [|error_member].
      destruct include_comments; cbn; [|discriminate].
      destruct (post_replace_more s); cbn; [discriminate | error_member].
    + destruct (subreddit reddit "all") as [sr|e1]; cbn; [|error_member].
      destruct (search sr query sort time_filter limit); cbn;
        [discriminate | error_member].
    + destruct (subreddit reddit name) as [sr|e1]; cbn; [|error_member].
      destruct (about sr); cbn; [discriminate | error_member].
  - split; [repeat split; eexists; reflexivity|].
    repeat split; error_member.
Qed.

Lemma C8_witness :
  (exists t,
      fst (get_subreddit_posts sample_reddit "python" "rising" 10 "day" [])
      = Return t
      /\ field "error" (document t)
         = Some (JStr "Failed to fetch posts: received 429 HTTP response"))
  /\ (exists t,
         fst (get_post_details sample_reddit "nope" false 10 []) = Return t
         /\ field "error" (document t)
            = Some (JStr "Failed to fetch post details: received 404 HTTP response")).
Proof.
  pose proof (C8_client_faults_become_error_objects sample_reddit []
                (Exception "received 429 HTTP response")
                "python" "rising" "day" "abc" "q" "relevance" 10 10 false)
    as (_ & Hposts & _).
  pose proof (C8_client_faults_become_error_objects sample_reddit []
                (Exception "received 404 HTTP response")
                "python" "hot" "day" "nope" "q" "relevance" 10 10 false)
    as (_ & _ & Hdetails & _).
  split; [apply Hposts | apply Hdetails]; reflexivity.
Defined.

(** C9, the claim as stated fails: with a negative [comment_limit] the slice
    drops comments from the end instead, and the list is longer than the
    limit; and a call that meets a fault answers with an error object, which
    has no [comments] member even when comments were asked for. *)
Lemma C9_comments_list_exceptions :
  ~ (forall (w : world) (id : string) (comment_limit : Z) (st : calls)
            (t : json_text) (comments : list json),
        fst (get_post_details w id true comment_limit st) = Return t ->
        field "comments" (document t) = Some (JList comments) ->
        (Z.of_nat (List.length comments) <= comment_limit)%Z)
  /\ ~ (forall (w : world) (id : string) (comment_limit : Z) (st : calls)
              (t : json_text),
          fst (get_post_details w id true comment_limit st) = Return t ->
          exists comments : list json,
            field "comments" (document t) = Some (JList comments)).
Proof.
  split.
  - intros H.
    specialize (H sample_reddit "abc" (-1)%Z [] _ _ eq_refl eq_refl).
    cbn in H. lia.
  - intros H.
    destruct (H sample_reddit "nope" 10%Z [] _ eq_refl) as [comments Hc].
    discriminate Hc.
Qed.

(** C9, amended: for a call of [get_post_details] whose post is fetched.
    With [include_comments] true and the placeholders replaced without a
    fault, the answer has a [comments] member: the records of the first
    [comment_limit] top-level comments of the forest without its placeholders,
    one record per comment, at most [comment_limit] of them when
    [comment_limit] is not negative (a negative one cuts that many comments
    off the end instead).  With [include_comments] false the answer has no
    [comments] member. *)
Theorem C9_comments_member
    (w : world) (id : string) (include_comments : bool) (comment_limit : Z)
    (st : calls) (reddit : Reddit) (s : Submission) :
  new_reddit w = Return reddit ->
  submission reddit id = Return s ->
  post_replace_more s = Return tt ->
  if include_comments then
    let kept := slice_to comment_limit (without_more (post_comments s)) in
    get_post_details w id true comment_limit st
    = (Return (json_dumps (Some 2%nat)
         (JObj (post_details s ++ [("comments", JList (comment_records kept))]))),
       CallReplaceMore 0 :: CallSubmission id :: st)
    /\ field "comments"
         (JObj (post_details s ++ [("comments", JList (comment_records kept))]))
       = Some (JList (comment_records kept))
    /\ List.length (comment_records kept) = List.length kept
    /\ ((0 <= comment_limit)%Z ->
        (Z.of_nat (List.length (comment_records kept)) <= comment_limit)%Z)
  else
    get_post_details w id false comment_limit st
    = (Return (json_dumps (Some 2%nat) (JObj (post_details s))),
       CallSubmission id :: st)
    /\ field "comments" (JObj (post_details s)) = None.
Proof.
  intros Hreddit Hs Hmore.
  destruct include_comments.
  - cbn zeta. split; [|split; [reflexivity|split]].
    + run_tool. rewrite Hreddit. cbn. rewrite Hs. cbn. rewrite Hmore. reflexivity.
    + apply comment_records_of_comments. intros Hin.
      apply slice_to_incl in Hin.
      exact (without_more_has_no_placeholder _ Hin).
    + intros Hlimit.
      pose proof (comment_records_length
                    (slice_to comment_limit (without_more (post_comments s)))).
      pose proof (slice_to_length comment_limit
                    (without_more (post_comments s)) Hlimit).
      lia.
  - split; [|reflexivity].
    run_tool. rewrite Hreddit. cbn. rewrite Hs. reflexivity.
Qed.

Lemma C9_witness :
  get_post_details sample_reddit "abc" true 2 []
  = (Return (json_dumps (Some 2%nat)
       (JObj (post_details sample_post
              ++ [("comments",
                   JList [comment_info (comment_by "ann" "first");
                          comment_info (comment_by "bob" "second")])]))),
     [CallReplaceMore 0; CallSubmission "abc"]).
Proof.
  exact (proj1 (C9_comments_member sample_reddit "abc" true 2 []
                  {| subreddit := fun _ => Return sample_subreddit;
                     submission := fun id =>
                       if String.eqb id "abc" then Return sample_post
                       else if String.eqb id "long" then
                         Return (post_with long_text [] (Return tt))
                       else Raise (Exception "received 404 HTTP response") |}
                  sample_post eq_refl eq_refl eq_refl)).
Defined.

(** C10: in every answer of [get_subreddit_posts] and of [search_reddit]
    that is not an error object, the [count] member is the number of records
    of the [posts] member, respectively of the [results] member. *)
Theorem C10_count_is_number_of_records
    (w : world) (st : calls) (t : json_text)
    (name sort_type time_filter query sort : string) (limit : Z) :
  (fst (get_subreddit_posts w name sort_type limit time_filter st) = Return t ->
   field "error" (document t) = None ->
   exists posts : list json,
     field "posts" (document t) = Some (JList posts)
     /\ field "count" (document t) = Some (JInt (Z.of_nat (List.length posts))))
  /\ (fst (search_reddit w query sort time_filter limit st) = Return t ->
      field "error" (document t) = None ->
      exists results : list json,
        field "results" (document t) = Some (JList results)
        /\ field "count" (document t)
           = Some (JInt (Z.of_nat (List.length results)))).
Proof.
  split.
  - run_tool. cbn.
    destruct (new_reddit w) as [reddit|e]; cbn;
      [|intros [= <-]; cbn; discriminate].
    destruct (subreddit reddit name) as [sr|e]; cbn;
      [|intros [= <-]; cbn; discriminate].
    repeat (destruct (String.eqb sort_type _); cbn;
            [case_call; cbn; intros [= <-]; cbn;
             [intros _; eexists; split; reflexivity | discriminate]|]).
    intros [= <-]; cbn; discriminate.
  - run_tool. cbn.
    destruct (new_reddit w) as [reddit|e]; cbn;
      [|intros [= <-]; cbn; discriminate].
    destruct (subreddit reddit "all") as [sr|e]; cbn;
      [|intros [= <-]; cbn; discriminate].
    destruct (search sr query sort time_filter limit); cbn; intros [= <-]; cbn;
      [intros _; eexists; split; reflexivity | discriminate].
Qed.

Lemma C10_witness :
  exists posts : list json,
    field "posts"
      (document (json_dumps (Some 2%nat)
         (posts_doc "python" "hot" "day" [post_info sample_post; post_info sample_post])))
    = Some (JList posts)
    /\ field "count"
         (document (json_dumps (Some 2%nat)
            (posts_doc "python" "hot" "day" [post_info sample_post; post_info sample_post])))
       = Some (JInt (Z.of_nat (List.length posts))).
Proof.
  exact (proj1 (C10_count_is_number_of_records sample_reddit [] _
                  "python" "hot" "day" "q" "relevance" 10) eq_refl eq_refl).
Defined.

End RedditProofs.

(* ================================================================== *)
(** * Laws of the rewriting and of the classification *)
(* ================================================================== *)

Module RewriteLaws.
Import Py BigQuery RewriteProofs.

(** ** What a match looks like *)

Lemma rep_found {R : Type} (p : ascii -> bool) (prev : option ascii)
    (s : string) (K : option ascii -> string -> option R) (x : R) :
  rep p prev s K = Some x ->
  exists a b : string,
    s = a ++ b /\ all_chars p a = true /\ K (last_char prev a) b = Some x.
Proof.
  revert prev. induction s as [|c s IH]; intros prev H; cbn in H.
  - exists EmptyString, EmptyString. auto.
  - destruct (p c) eqn:Hc.
    + destruct (rep p (Some c) s K) as [y|] eqn:Hrep.
      * injection H as ->.
        destruct (IH (Some c) Hrep) as (a & b & -> & Ha & HK).
        exists (String c a), b. cbn. rewrite Hc, Ha. auto.
      * exists EmptyString, (String c s). auto.
    + exists EmptyString, (String c s). auto.
Qed.

Lemma ci_prefix_take (k s : string) :
  ci_prefix k s = true ->
  ci_equal (take (String.length k) s) k = true
  /\ s = take (String.length k) s ++ drop (String.length k) s.
Proof.
  revert s. induction k as [|a k IH]; intros s H.
  - destruct s; cbn; auto.
  - destruct s as [|b s]; [discriminate|]. cbn in H.
    apply andb_true_iff in H. destruct H as [Hb H].
    destruct (IH s H) as [H1 H2]. cbn. rewrite Hb, H1. split; [reflexivity|].
    now rewrite <- H2.
Qed.

(** The part of a pattern after the white space, when it matches. *)
Lemma identifier_found (k : string) (R : Type) (prev : option ascii)
    (b : string) (g : option string)
    (K : option ascii -> string -> option string -> option R) (x : R) :
  rmatch (guard_of k (Cat identifier Boundary)) R prev b g K = Some x ->
  exists t rest : string,
    b = t ++ rest
    /\ is_identifier t = true
    /\ at_boundary (last_char prev t) rest = true
    /\ (k = "TABLE" -> begins_if_exists b = false)
    /\ K (last_char prev t) rest (Some t) = Some x.
Proof.
  intros H.
  assert (Hid : rmatch (Cat identifier Boundary) R prev b g K = Some x
                /\ (k = "TABLE" -> begins_if_exists b = false)).
  { unfold guard_of in H.
    destruct (String.eqb_spec k "TABLE") as [->|Hk].
    - cbn [rmatch] in H. rewrite lookahead_if_exists in H.
      destruct (begins_if_exists b); [discriminate|]. split; [exact H | reflexivity].
    - split; [exact H | congruence]. }
  destruct Hid as [Hid Hguard]. clear H.
  unfold identifier in Hid. cbn [rmatch] in Hid.
  destruct b as [|c b]; [discriminate|].
  destruct (ident_start c) eqn:Hc; [|discriminate].
  apply rep_found in Hid. destruct Hid as (a & rest & -> & Ha & HK).
  destruct (at_boundary (last_char (Some c) a) rest) eqn:Hb; [|discriminate].
  exists (String c a), rest. cbn [append last_char is_identifier].
  rewrite Hc, Ha. repeat split; try assumption.
  change (String c (a ++ rest)) with (String c a ++ rest) in HK.
  now rewrite take_app_length in HK.
Qed.

(** Whatever a pattern matches is the keyword in some case, white space and
    an identifier between two word boundaries; the group is the identifier. *)
Lemma match_shape (k : string) (prev : option ascii) (s : string)
    (n : nat) (g : option string) :
  match_at (pattern_of k) prev s = Some (n, g) ->
  exists kw ws t rest : string,
    s = kw ++ ws ++ t ++ rest
    /\ ci_equal kw k = true
    /\ ws <> "" /\ all_chars is_space ws = true
    /\ is_identifier t = true
    /\ at_boundary prev s = true
    /\ at_boundary (last_char None t) rest = true
    /\ (k = "TABLE" -> begins_if_exists (t ++ rest) = false)
    /\ n = String.length kw + String.length ws + String.length t
    /\ g = Some t.
Proof.
  unfold match_at, pattern_of. cbn [rmatch]. intros H.
  destruct (at_boundary prev s) eqn:Hb; [|discriminate].
  rewrite rmatch_word in H.
  destruct (ci_prefix k s) eqn:Hp; [|discriminate].
  destruct (ci_prefix_take k s Hp) as [Hkw Hs].
  destruct (drop (String.length k) s) as [|c r] eqn:Hdrop; [discriminate|].
  destruct (is_space c) eqn:Hc; [|discriminate].
  apply rep_found in H. destruct H as (a & b & -> & Ha & HK).
  apply identifier_found in HK.
  destruct HK as (t & rest & -> & Ht & Hbt & Hguard & HK).
  injection HK as Hn Hg.
  exists (take (String.length k) s), (String c a), t, rest.
  assert (Hlast : last_char (last_char (Some c) a) t = last_char None t).
  { destruct t; [discriminate | reflexivity]. }
  rewrite Hlast in Hbt.
  split; [exact Hs|].
  split; [exact Hkw|].
  split; [discriminate|].
  split; [cbn; now rewrite Hc, Ha|].
  split; [exact Ht|].
  split; [reflexivity|].
  split; [exact Hbt|].
  split; [exact Hguard|].
  split; [|now symmetry].
  rewrite <- Hn. rewrite Hs at 1.
  repeat (rewrite length_app || cbn [String.length]). lia.
Qed.

(** ** Substrings *)

Lemma startswith_app (n b : string) : startswith n (n ++ b) = true.
Proof.
  induction n as [|c n IH]; cbn; [reflexivity|].
  now rewrite Ascii.eqb_refl, IH.
Qed.

Lemma startswith_more (n x y : string) :
  startswith n x = true -> startswith n (x ++ y) = true.
Proof.
  revert x. induction n as [|c n IH]; intros x H; [reflexivity|].
  destruct x as [|d x]; [discriminate|]. cbn in H |- *.
  apply andb_true_iff in H. destruct H as [H1 H2].
  now rewrite H1, (IH x H2).
Qed.

Lemma contains_cons (n : string) (c : ascii) (y : string) :
  contains n y = true -> contains n (String c y) = true.
Proof.
  intros H. cbn [contains]. rewrite H. apply orb_true_r.
Qed.

Lemma contains_app_r (n x y : string) :
  contains n y = true -> contains n (x ++ y) = true.
Proof.
  intros H. induction x as [|c x IH]; [exact H|].
  cbn [append]. now apply contains_cons.
Qed.

Lemma contains_start (n x : string) :
  startswith n x = true -> contains n x = true.
Proof.
  intros H. destruct x; cbn [contains]; now rewrite H.
Qed.

Lemma contains_app_l (n x y : string) :
  contains n x = true -> contains n (x ++ y) = true.
Proof.
  induction x as [|c x IH]; intros H.
  - cbn in H. rewrite orb_false_r in H.
    apply contains_start. now apply (startswith_more n "" y).
  - cbn [contains] in H. apply orb_true_iff in H. destruct H as [H|H].
    + apply contains_start. now apply startswith_more.
    + cbn [append]. apply contains_cons, IH, H.
Qed.

Lemma contains_middle (n a b : string) : contains n (a ++ n ++ b) = true.
Proof.
  apply contains_app_r, contains_start, startswith_app.
Qed.

Lemma startswith_split (n x : string) :
  startswith n x = true -> exists b, x = n ++ b.
Proof.
  revert x. induction n as [|c n IH]; intros x H.
  - now exists x.
  - destruct x as [|d x]; [discriminate|]. cbn in H.
    apply andb_true_iff in H. destruct H as [H1 H2].
    apply Ascii.eqb_eq in H1. subst d.
    destruct (IH x H2) as [b ->]. now exists b.
Qed.

Lemma contains_split (n x : string) :
  contains n x = true -> exists a b, x = a ++ n ++ b.
Proof.
  induction x as [|c x IH]; intros H.
  - cbn in H. rewrite orb_false_r in H.
    destruct (startswith_split n "" H) as [b Hb]. now exists EmptyString, b.
  - cbn [contains] in H. apply orb_true_iff in H. destruct H as [H|H].
    + destruct (startswith_split n _ H) as [b Hb]. now exists EmptyString, b.
    + destruct (IH H) as (a & b & ->). now exists (String c a), b.
Qed.

(** ** A substitution that changes the text leaves the prefix in it *)

Lemma expansion_holds_prefix (k : string) (g : option string) :
  exists x y : string, expand (qualify k) g = x ++ qualified_prefix ++ y.
Proof.
  unfold qualify, qualified_prefix. cbn [expand].
  exists (k ++ " `"),
    ("." ++ match g with Some t => t | None => "" end ++ "`" ++ "").
  now rewrite !append_assoc.
Qed.

Lemma scan_changed (k : string) (prev : option ascii) (s : string)
    (skip : nat) :
  re_sub_from (pattern_of k) (qualify k) prev s skip = drop skip s
  \/ contains qualified_prefix
       (re_sub_from (pattern_of k) (qualify k) prev s skip) = true.
Proof.
  revert prev skip. induction s as [|c s IH]; intros prev skip.
  - left. now destruct skip.
  - cbn [re_sub_from]. destruct skip as [|j].
    + destruct (match_at (pattern_of k) prev (String c s)) as [[[|n] g]|].
      * destruct (IH (Some c) 0) as [H|H].
        -- left. rewrite H. now destruct s.
        -- right. now apply contains_cons.
      * right. destruct (expansion_holds_prefix k g) as (x & y & ->).
        rewrite !append_assoc. apply contains_middle.
      * destruct (IH (Some c) 0) as [H|H].
        -- left. rewrite H. now destruct s.
        -- right. now apply contains_cons.
    + cbn [drop]. apply IH.
Qed.

(** ** A substitution keeps the prefix that is in the text *)

Lemma dead_prefix (k : string) (prev : option ascii) :
  In k keywords -> dead k prev qualified_prefix = true.
Proof.
  intros [<-|[<-|[<-|[<-|[]]]]]; vm_compute; reflexivity.
Qed.

Lemma expansion_contains_prefix (k : string) (g : option string) (x : string) :
  contains qualified_prefix (expand (qualify k) g ++ x) = true.
Proof.
  destruct (expansion_holds_prefix k g) as (a & b & ->).
  rewrite !append_assoc. apply contains_middle.
Qed.

Lemma scan_keeps_prefix (k : string) (prev : option ascii) (a b : string) :
  In k keywords ->
  contains qualified_prefix
    (re_sub_from (pattern_of k) (qualify k) prev (a ++ qualified_prefix ++ b) 0)
  = true.
Proof.
  intros Hk. revert prev. induction a as [|c a IH]; intros prev.
  - cbn [append]. rewrite scan_inert by (apply dead_inert, dead_prefix, Hk).
    apply contains_start, startswith_app.
  - cbn [append re_sub_from].
    destruct (match_at (pattern_of k) prev
                (String c (a ++ qualified_prefix ++ b))) as [[[|n] g]|].
    + apply contains_cons, IH.
    + apply expansion_contains_prefix.
    + apply contains_cons, IH.
Qed.

Lemma pass_keeps_prefix (k x : string) :
  In k keywords ->
  contains qualified_prefix x = true ->
  contains qualified_prefix (re_sub (pattern_of k) (qualify k) x) = true.
Proof.
  intros Hk H. destruct (contains_split _ _ H) as (a & b & ->).
  apply scan_keeps_prefix, Hk.
Qed.

Lemma pass_changed (k x : string) :
  re_sub (pattern_of k) (qualify k) x = x
  \/ contains qualified_prefix (re_sub (pattern_of k) (qualify k) x) = true.
Proof.
  unfold re_sub. destruct (scan_changed k None x 0) as [H|H]; [left | now right].
  rewrite H. now destruct x.
Qed.

Lemma rewrite_outcome (query : string) :
  rewrite_query query = query
  \/ contains qualified_prefix (rewrite_query query) = true.
Proof.
  unfold rewrite_query.
  destruct (contains qualified_prefix query) eqn:Hq; cbn [negb]; [now left|].
  rewrite four_passes.
  destruct (pass_changed "FROM" query) as [H1|H1].
  - rewrite H1. destruct (pass_changed "INTO" query) as [H2|H2].
    + rewrite H2. destruct (pass_changed "UPDATE" query) as [H3|H3].
      * rewrite H3. destruct (pass_changed "TABLE" query) as [H4|H4];
          [left; exact H4 | right; exact H4].
      * right. apply pass_keeps_prefix; [cbn; tauto | exact H3].
    + right. do 2 (apply pass_keeps_prefix; [cbn; tauto|]). exact H2.
  - right. do 3 (apply pass_keeps_prefix; [cbn; tauto|]). exact H1.
Qed.

(** Either no pattern matched anywhere and the statement is submitted as it
    was passed, or the submitted statement holds the qualified prefix: a
    statement cannot be changed without the prefix coming into it. *)
Theorem rewrite_unchanged_or_qualified (query : string) :
  rewrite_query query = query
  \/ contains qualified_prefix (rewrite_query query) = true.
Proof.
  exact (rewrite_outcome query).
Qed.

(** Rewriting a statement that was already rewritten changes nothing: what
    [query_bigquery] submits can be passed to it again and is submitted as it
    is. *)
Theorem rewrite_idempotent (query : string) :
  rewrite_query (rewrite_query query) = rewrite_query query.
Proof.
  destruct (rewrite_outcome query) as [H|H].
  - now rewrite H.
  - unfold rewrite_query at 1. now rewrite H.
Qed.

(** ** How a statement is classified *)

Lemma upper_char_space (c : ascii) :
  is_space c = true -> upper_char c = String c EmptyString.
Proof.
  destruct c as [[] [] [] [] [] [] [] []]; vm_compute; congruence.
Qed.

Lemma upper_char_no_space (c : ascii) (x : string) :
  is_space c = false -> space_at (upper_char c ++ x) = false.
Proof.
  destruct c as [[] [] [] [] [] [] [] []]; vm_compute; congruence.
Qed.

Lemma lstrip_id (y : string) : space_at y = false -> lstrip y = y.
Proof.
  destruct y as [|c y]; [reflexivity|]. cbn. now intros ->.
Qed.

Lemma lstrip_upper (s : string) : lstrip (upper s) = upper (lstrip s).
Proof.
  induction s as [|c s IH]; [reflexivity|]. cbn [upper lstrip].
  destruct (is_space c) eqn:Hc.
  - rewrite (upper_char_space c Hc). cbn [append lstrip]. now rewrite Hc.
  - apply lstrip_id, upper_char_no_space, Hc.
Qed.

Lemma startswith_rstrip (w y : string) :
  all_chars (fun c => negb (is_space c)) w = true ->
  startswith w (rstrip y) = startswith w y.
Proof.
  revert w. induction y as [|c y IH]; intros w Hw; [reflexivity|].
  destruct w as [|a w]; [reflexivity|].
  cbn in Hw. apply andb_true_iff in Hw. destruct Hw as [Ha Hw].
  apply negb_true_iff in Ha.
  specialize (IH w Hw). cbn [rstrip].
  destruct (rstrip y) as [|d t] eqn:Hr.
  - destruct (is_space c) eqn:Hc.
    + cbn. destruct (Ascii.eqb_spec a c) as [->|]; [congruence | reflexivity].
    + cbn [startswith]. now rewrite IH.
  - cbn [startswith]. now rewrite IH.
Qed.

(** No capital S of the word is followed by another: the capital of the
    sharp s, two letters S, then never begins the word. *)
Fixpoint ss_safe (w : string) : bool :=
  match w with
  | EmptyString => true
  | String a w' =>
      (match w' with
       | EmptyString => negb (Ascii.eqb a "S")
       | String b _ => negb (Ascii.eqb a "S") || negb (Ascii.eqb b "S")
       end && ss_safe w')%bool
  end.

Definition sharp_s : ascii := ascii_of_N 223.

Lemma upper_char_letter (a c : ascii) :
  is_upper_az a = true -> c <> sharp_s ->
  exists x : ascii,
    upper_char c = String x EmptyString /\ Ascii.eqb a x = ci_eqb c a.
Proof.
  intros Ha.
  destruct a as [[] [] [] [] [] [] [] []]; try discriminate Ha; clear Ha;
    destruct c as [[] [] [] [] [] [] [] []]; intros Hc;
    try (exfalso; apply Hc; reflexivity);
    eexists; split; reflexivity.
Qed.

Lemma sharp_s_no_letter (a : ascii) :
  is_upper_az a = true -> ci_eqb sharp_s a = false.
Proof.
  destruct a as [[] [] [] [] [] [] [] []]; vm_compute; congruence.
Qed.

Lemma startswith_upper (w y : string) :
  all_chars is_upper_az w = true -> ss_safe w = true ->
  startswith w (upper y) = ci_prefix w y.
Proof.
  revert y. induction w as [|a w IH]; intros y Hw Hs; [reflexivity|].
  cbn in Hw. apply andb_true_iff in Hw. destruct Hw as [Ha Hw].
  cbn [ss_safe] in Hs. apply andb_true_iff in Hs. destruct Hs as [Hs1 Hs2].
  destruct y as [|c y]; [reflexivity|]. cbn [upper ci_prefix].
  destruct (ascii_dec c sharp_s) as [->|Hc].
  - rewrite (sharp_s_no_letter a Ha). cbn [andb].
    change (upper_char sharp_s) with "SS". cbn [append startswith].
    destruct (Ascii.eqb a "S") eqn:HaS; [|reflexivity]. cbn [andb].
    destruct w as [|b w]; [discriminate Hs1|].
    cbn [negb orb] in Hs1. apply negb_true_iff in Hs1.
    cbn [startswith]. now rewrite Hs1.
  - destruct (upper_char_letter a c Ha Hc) as (x & -> & Hx).
    cbn [append startswith]. now rewrite Hx, (IH y Hw Hs2).
Qed.

Lemma is_read_letters (query : string) :
  is_read query
  = (ci_prefix "SELECT" (lstrip query) || ci_prefix "WITH" (lstrip query))%bool.
Proof.
  unfold is_read, strip.
  rewrite !startswith_rstrip by reflexivity.
  rewrite lstrip_upper.
  now rewrite !startswith_upper by reflexivity.
Qed.

(** The code points of ASCII. *)
Definition is_ascii (c : ascii) : bool := Nat.ltb (nat_of_ascii c) 128.

(** A statement that begins, after its leading white space, with the
    letters of SELECT or of WITH in any case is a read: upper-casing the whole
    statement and stripping its end do not matter.  For a statement of ASCII
    characters the converse holds as well, so that those letters alone decide
    how it is classified. *)
Theorem is_read_by_leading_letters (query : string) :
  ((ci_prefix "SELECT" (lstrip query) || ci_prefix "WITH" (lstrip query))%bool
   = true ->
   is_read query = true)
  /\ (all_chars is_ascii query = true ->
      is_read query
      = (ci_prefix "SELECT" (lstrip query)
         || ci_prefix "WITH" (lstrip query))%bool).
Proof.
  split.
  - intros H. now rewrite is_read_letters.
  - intros _. apply is_read_letters.
Qed.

Lemma is_read_by_leading_letters_witness :
  is_read "  select 1" = true /\ is_read "DROP TABLE t" = false.
Proof.
  split.
  - exact (proj1 (is_read_by_leading_letters "  select 1") eq_refl).
  - exact (proj2 (is_read_by_leading_letters "DROP TABLE t") eq_refl).
Defined.

(** ** The rewriting does not change the classification *)

Lemma match_starts_keyword (k : string) (prev : option ascii) (s : string)
    (x : nat * option string) :
  match_at (pattern_of k) prev s = Some x ->
  at_boundary prev s = true /\ ci_prefix k s = true.
Proof.
  intros H. destruct (keyword_here k prev s) eqn:Hk.
  - unfold keyword_here in Hk.
    apply andb_true_iff in Hk. destruct Hk as [Hk _].
    now apply andb_true_iff in Hk.
  - rewrite (no_keyword_no_match k prev s Hk) in H. discriminate.
Qed.

Definition first_differs (k w : string) : bool :=
  match k, w with
  | String a _, String b _ => negb (ci_eqb a b)
  | _, _ => false
  end.

(** A word of capitals that begins with none of the four initials begins the
    text after a substitution exactly when it began it before. *)
Lemma ci_prefix_scan (k w : string) (prev : option ascii) (s : string) :
  In k keywords ->
  all_chars is_upper_az w = true ->
  is_word_at prev = true \/ first_differs k w = true ->
  ci_prefix w (re_sub_from (pattern_of k) (qualify k) prev s 0) = ci_prefix w s.
Proof.
  intros Hk. destruct (keyword_letters k Hk) as [Hupper Hne].
  revert prev s. induction w as [|x w IH]; intros prev s Hw Hcase; [reflexivity|].
  cbn in Hw. apply andb_true_iff in Hw. destruct Hw as [Hx Hw].
  destruct s as [|c s]; [reflexivity|]. cbn [re_sub_from].
  assert (Hcopy : ci_prefix (String x w)
                    (String c (re_sub_from (pattern_of k) (qualify k) (Some c) s 0))
                  = ci_prefix (String x w) (String c s)).
  { cbn [ci_prefix]. destruct (ci_eqb c x) eqn:Hcx; [|reflexivity]. cbn [andb].
    apply IH; [exact Hw | left].
    cbn. apply ci_eqb_letter in Hcx; [|exact Hx]. now apply letter_classes. }
  destruct (match_at (pattern_of k) prev (String c s)) as [[[|n] g]|] eqn:Hm;
    try exact Hcopy.
  destruct (match_starts_keyword k prev _ _ Hm) as [Hb Hp].
  destruct k as [|a k]; [congruence|].
  cbn in Hupper. apply andb_true_iff in Hupper. destruct Hupper as [Ha _].
  cbn in Hp. apply andb_true_iff in Hp. destruct Hp as [Hca _].
  pose proof (ci_eqb_letter c a Ha Hca) as Hc.
  apply letter_classes in Hc. destruct Hc as [Hc _].
  destruct Hcase as [Hprev|Hdiff].
  - unfold at_boundary in Hb. cbn in Hb. rewrite Hprev, Hc in Hb. discriminate.
  - cbn in Hdiff. apply negb_true_iff in Hdiff.
    unfold qualify. cbn [expand append ci_prefix].
    now rewrite (ci_eqb_trans_l c a x Hca), Hdiff.
Qed.

Lemma scan_head_space (k : string) (prev : option ascii) (s : string) :
  In k keywords ->
  space_at s = false ->
  space_at (re_sub_from (pattern_of k) (qualify k) prev s 0) = false.
Proof.
  intros Hk Hs. destruct s as [|c s]; [reflexivity|]. cbn [re_sub_from].
  destruct (match_at (pattern_of k) prev (String c s)) as [[[|n] g]|];
    try exact Hs.
  unfold qualify. cbn [expand].
  destruct Hk as [<-|[<-|[<-|[<-|[]]]]]; reflexivity.
Qed.

Lemma lstrip_app_spaces (sp y : string) :
  all_chars is_space sp = true -> lstrip (sp ++ y) = lstrip y.
Proof.
  induction sp as [|c sp IH]; intros H; [reflexivity|].
  cbn in H. apply andb_true_iff in H. destruct H as [Hc H].
  cbn [append lstrip]. rewrite Hc. apply IH, H.
Qed.

Lemma pass_keeps_leading_word (k w x : string) :
  In k keywords ->
  all_chars is_upper_az w = true -> first_differs k w = true ->
  ci_prefix w (lstrip (re_sub (pattern_of k) (qualify k) x))
  = ci_prefix w (lstrip x).
Proof.
  intros Hk Hw Hdiff. unfold re_sub.
  rewrite <- (leading_space_lstrip x) at 1.
  rewrite scan_inert
    by (apply dead_inert, dead_spaces; [exact Hk | apply leading_space_all]).
  rewrite lstrip_app_spaces by apply leading_space_all.
  rewrite lstrip_id
    by (apply scan_head_space; [exact Hk | apply lstrip_no_space]).
  apply ci_prefix_scan; [exact Hk | exact Hw | now right].
Qed.

Lemma pass_keeps_is_read (k x : string) :
  In k keywords ->
  is_read (re_sub (pattern_of k) (qualify k) x) = is_read x.
Proof.
  intros Hk. rewrite !is_read_letters.
  rewrite !(pass_keeps_leading_word k) ; try reflexivity; try exact Hk;
    destruct Hk as [<-|[<-|[<-|[<-|[]]]]]; reflexivity.
Qed.

Lemma is_read_rewritten (query : string) :
  is_read (rewrite_query query) = is_read query.
Proof.
  unfold rewrite_query.
  destruct (contains qualified_prefix query); cbn [negb]; [reflexivity|].
  rewrite four_passes.
  rewrite !pass_keeps_is_read by (cbn; tauto). reflexivity.
Qed.

(** The statement submitted is classified as the statement passed in would
    be: the rewriting never turns a read into another statement, nor the
    reverse. *)
Theorem rewrite_keeps_is_read (query : string) :
  is_read (rewrite_query query) = is_read query.
Proof.
  exact (is_read_rewritten query).
Qed.

(** ** A substitution only qualifies references *)

(** [qualifies k s s']: [s'] is [s] with some of the references of keyword
    [k] replaced by their qualified form and every other character kept. *)
Inductive qualifies (k : string) : string -> string -> Prop :=
| qualifies_end : qualifies k "" ""
| qualifies_keep (c : ascii) (s s' : string) :
    qualifies k s s' -> qualifies k (String c s) (String c s')
| qualifies_reference (kw ws t rest rest' : string) :
    ci_equal kw k = true ->
    ws <> "" -> all_chars is_space ws = true ->
    is_identifier t = true ->
    qualifies k rest rest' ->
    qualifies k (kw ++ ws ++ t ++ rest) (qualified k t ++ rest').

Lemma scan_qualifies (k : string) (n : nat) :
  forall (s : string) (prev : option ascii),
    String.length s <= n ->
    qualifies k s (re_sub_from (pattern_of k) (qualify k) prev s 0).
Proof.
  induction n as [|n IH]; intros s prev Hlen.
  - destruct s; [constructor | cbn in Hlen; lia].
  - destruct s as [|c s]; [constructor|]. cbn in Hlen. cbn [re_sub_from].
    destruct (match_at (pattern_of k) prev (String c s)) as [[[|m] g]|] eqn:Hm.
    + constructor. apply IH. lia.
    + destruct (match_shape k prev _ _ _ Hm)
        as (kw & ws & t & rest & Hs & Hkw & Hws1 & Hws2 & Ht & _ & _ & _ & Hn & ->).
      rewrite Hs.
      assert (Hspan : exists span',
                 kw ++ ws ++ t = String c span' /\ String.length span' = m
                 /\ s = span' ++ rest).
      { rewrite <- !append_assoc in Hs.
        assert (Hl : String.length ((kw ++ ws) ++ t) = S m)
          by (rewrite !length_app; lia).
        rewrite <- append_assoc.
        destruct ((kw ++ ws) ++ t) as [|d span']; [discriminate Hl|].
        cbn in Hs. injection Hs as -> ->.
        exists span'. cbn in Hl. repeat split. lia. }
      destruct Hspan as (span' & Hspan & Hm' & ->).
      rewrite <- Hm', scan_skip.
      apply (qualifies_reference k kw ws t); try assumption.
      apply IH. rewrite length_app in Hlen. lia.
    + constructor. apply IH. lia.
Qed.

(** One substitution replaces references of its keyword by their qualified
    form and copies every other character, in order. *)
Lemma pass_qualifies (k s : string) :
  qualifies k s (re_sub (pattern_of k) (qualify k) s).
Proof.
  apply (scan_qualifies k (String.length s)). lia.
Qed.

(** The statement submitted comes from the statement passed in by
    qualifying references of FROM, then of INTO, of UPDATE and of TABLE, and
    by nothing else. *)
Theorem rewrite_only_qualifies (query : string) :
  contains qualified_prefix query = false ->
  exists q1 q2 q3 : string,
    qualifies "FROM" query q1 /\ qualifies "INTO" q1 q2
    /\ qualifies "UPDATE" q2 q3 /\ qualifies "TABLE" q3 (rewrite_query query).
Proof.
  intros H. unfold rewrite_query. rewrite H. cbn [negb]. rewrite four_passes.
  do 3 eexists. repeat split; apply pass_qualifies.
Qed.

Lemma rewrite_only_qualifies_witness :
  exists q1 q2 q3 : string,
    qualifies "FROM" "SELECT * FROM orders" q1 /\ qualifies "INTO" q1 q2
    /\ qualifies "UPDATE" q2 q3
    /\ qualifies "TABLE" q3 (rewrite_query "SELECT * FROM orders").
Proof.
  exact (rewrite_only_qualifies "SELECT * FROM orders" eq_refl).
Defined.

End RewriteLaws.

(* ================================================================== *)
(** * Acquisition and submission in the BigQuery server *)
(* ================================================================== *)

Module BigQueryLaws.
Import Py BigQuery BigQueryProofs.

Local Open Scope py_scope.

(** Number of statements handed to [client.query] in a trace. *)
Fixpoint submissions (t : list event) : nat :=
  match t with
  | [] => 0
  | Submitted _ _ :: t' => S (submissions t')
  | _ :: t' => submissions t'
  end.

(** A world whose credential variable names a file that is not there. *)
Definition stale_variable_world : world :=
  {| path_exists := false;
     from_service_account_file := Raise (Exception "no such file");
     env_credentials := Some "/gone.json";
     new_client := fun _ => Raise (Exception "File /gone.json was not found.") |}.

(** A failed acquisition stores nothing: the cache is still empty, and the
    next call runs a strategy again and succeeds when the world lets it. *)
Theorem failed_acquisition_is_retried
    (w w' : world) (st st1 : process) (e : exn) :
  get_bigquery_client w st = (Raise e, st1) ->
  _bq_client st1 = None
  /\ (acquisition_fault w' = None ->
      exists (c : client) (st2 : process),
        get_bigquery_client w' st1 = (Return c, st2)
        /\ _bq_client st2 = Some c).
Proof.
  intros H.
  assert (Hnone : _bq_client st = None).
  { destruct (_bq_client st) as [c|] eqn:Hc; [|reflexivity].
    rewrite (cached_client_is_returned w st c Hc) in H. discriminate. }
  pose proof (acquisition_outcome w st Hnone) as Hout. rewrite H in Hout.
  destruct Hout as [_ Hempty]. split; [exact Hempty|].
  intros Hok. pose proof (acquisition_outcome w' st1 Hempty) as Hnext.
  destruct (get_bigquery_client w' st1) as [[c|e'] st2].
  - exists c, st2. split; [reflexivity | apply Hnext].
  - destruct Hnext as [Hf _]. congruence.
Qed.

Lemma failed_acquisition_is_retried_witness :
  _bq_client (snd (get_bigquery_client bad_key_world fresh)) = None
  /\ exists (c : client) (st2 : process),
       get_bigquery_client sample_world
         (snd (get_bigquery_client bad_key_world fresh)) = (Return c, st2)
       /\ _bq_client st2 = Some c.
Proof.
  destruct (failed_acquisition_is_retried bad_key_world sample_world fresh
              (snd (get_bigquery_client bad_key_world fresh))
              (Exception "bad key file") eq_refl) as [H1 H2].
  split; [exact H1 | exact (H2 eq_refl)].
Defined.

(** One acquisition runs one strategy: [bigquery.Client] is called at most
    once, a strategy that fails is not followed by the next one, and when the
    key file is there the client is never built without its credentials. *)
Theorem acquisition_runs_one_strategy (w : world) (st : process) :
  clients_built (trace (snd (get_bigquery_client w st)))
  <= S (clients_built (trace st))
  /\ (forall e : exn,
         fst (get_bigquery_client w st) = Raise e ->
         path_exists w = true ->
         from_service_account_file w = Raise e
         \/ exists creds, from_service_account_file w = Return creds
                          /\ new_client w (Some creds) = Raise e)
  /\ (forall e : exn,
         fst (get_bigquery_client w st) = Raise e ->
         path_exists w = false ->
         exists e', new_client w None = Raise e'
                    /\ e = if truthy (env_credentials w) then e'
                           else no_authentication).
Proof.
  unfold get_bigquery_client, bind, get, try_except, call,
    log, set_bq_client, modify, ret, raise.
  destruct (_bq_client st) as [c|].
  - cbn. split; [lia|]. split; intros e H; discriminate.
  - destruct (path_exists w).
    + destruct (from_service_account_file w) as [creds|e0]; cbn.
      * destruct (new_client w (Some creds)) as [c|e1] eqn:Hnew; cbn.
        -- split; [lia|]. split; intros e H; discriminate.
        -- split; [lia|]. split; intros e H; [|discriminate].
           injection H as <-. intros _. right. exists creds. auto.
      * split; [lia|]. split; intros e H; [|discriminate].
        injection H as <-. intros _. now left.
    + destruct (truthy (env_credentials w)).
      * destruct (new_client w None) as [c|e1] eqn:Hnew; cbn.
        -- split; [lia|]. split; intros e H; discriminate.
        -- split; [lia|]. split; intros e H; [discriminate|].
           injection H as <-. intros _. now exists e1.
      * destruct (new_client w None) as [c|e1] eqn:Hnew; cbn.
        -- split; [lia|]. split; intros e H; discriminate.
        -- split; [lia|]. split; intros e H; [discriminate|].
           injection H as <-. intros _. now exists e1.
Qed.

Lemma acquisition_runs_one_strategy_witness :
  exists e', new_client stale_variable_world None = Raise e'
             /\ Exception "File /gone.json was not found." = e'.
Proof.
  exact (proj2 (proj2 (acquisition_runs_one_strategy stale_variable_world fresh))
           (Exception "File /gone.json was not found.") eq_refl eq_refl).
Defined.

Section Submissions.

Variable text_of : json_text -> string.

(** A call of [query_bigquery] hands exactly one statement to the client
    when it has a client, also when the execution then fails, and none when
    the acquisition fails; the cache is what the acquisition left. *)
Theorem query_bigquery_submits_once (w : world) (query : string) (st : process) :
  let after := snd (query_bigquery text_of w query st) in
  let acquired := get_bigquery_client w st in
  _bq_client after = _bq_client (snd acquired)
  /\ clients_built (trace after) = clients_built (trace (snd acquired))
  /\ submissions (trace after)
     = match fst acquired with
       | Return _ => S (submissions (trace (snd acquired)))
       | Raise _ => submissions (trace (snd acquired))
       end.
Proof.
  cbn zeta. destruct (get_bigquery_client w st) as [[c|e] st1] eqn:Hacq.
  - rewrite (query_bigquery_with_client text_of w query st st1 c Hacq). cbn. auto.
  - rewrite (query_bigquery_without_client text_of w query st st1 e Hacq). cbn. auto.
Qed.

(** The shape of the answer follows the statement as it was passed in, not
    only as it was submitted: with a client at hand, a statement that is
    itself a read by the test of the code is answered with the row count and
    what follows it or with a failure, and any other statement with the
    acknowledgment or with a failure. *)
Theorem answer_follows_statement_passed_in
    (w : world) (query : string) (st st1 : process) (c : client) :
  get_bigquery_client w st = (Return c, st1) ->
  exists text : string,
    fst (query_bigquery text_of w query st) = Return text
    /\ (startswith "Query failed: " text = true
        \/ if is_read query
           then startswith "Query executed successfully. Found " text = true
           else exists job : query_job,
                  client_query c (rewrite_query query) standard_sql = Return job
                  /\ text = "Query executed successfully."
                            ++ match affected job with
                               | Some n => " Affected " ++ str_int n ++ " rows."
                               | None => ""
                               end).
Proof.
  intros Hacq.
  rewrite (query_bigquery_with_client text_of w query st st1 c Hacq).
  eexists. split; [reflexivity|].
  unfold response.
  rewrite RewriteLaws.is_read_rewritten.
  destruct (client_query c (rewrite_query query) standard_sql) as [job|e];
    [|now left].
  destruct (job_result job) as [results|e]; [|now left].
  destruct (is_read query).
  - destruct (fetch_rows results) as [rows|e]; [right | now left]. reflexivity.
  - right. now exists job.
Qed.

End Submissions.

Lemma answer_follows_statement_passed_in_witness :
  exists text : string,
    fst (query_bigquery (fun _ => "") sample_world "  select * from orders" serving)
    = Return text
    /\ (startswith "Query failed: " text = true
        \/ startswith "Query executed successfully. Found " text = true).
Proof.
  exact (answer_follows_statement_passed_in (fun _ => "") sample_world
           "  select * from orders" serving serving dml_client eq_refl).
Defined.

End BigQueryLaws.

(* ================================================================== *)
(** * Further properties of the Reddit tools *)
(* ================================================================== *)

Module RedditLaws.
Import Py RedditMCP RedditProofs.

Local Open Scope py_scope.

(** The comments of the top level of a forest, in order. *)
Fixpoint comments_of (forest : list comment_node) : list Comment :=
  match forest with
  | [] => []
  | IsComment c :: rest => c :: comments_of rest
  | MoreComments :: rest => comments_of rest
  end.

Definition valid_sort (sort_type : string) : bool :=
  (String.eqb sort_type "hot" || String.eqb sort_type "new"
   || String.eqb sort_type "top" || String.eqb sort_type "rising")%bool.

(** ** Truncation *)

Lemma take_take_app (limit : nat) (text tail : string) :
  limit <= String.length text ->
  take limit (take limit text ++ tail) = take limit text.
Proof.
  revert text. induction limit as [|n IH]; intros text H.
  - cbn. now destruct tail.
  - destruct text as [|c text]; [cbn in H; lia|]. cbn in H |- *.
    f_equal. apply IH. lia.
Qed.

(** Truncating twice is truncating once, and truncation never touches the
    first [limit] characters. *)
Theorem truncated_idempotent (limit : nat) (text : string) :
  truncated limit (truncated limit text) = truncated limit text
  /\ take limit (truncated limit text) = take limit text.
Proof.
  destruct (Nat.le_gt_cases (String.length text) limit) as [H|H].
  - rewrite (truncated_short limit text H). split; [|reflexivity].
    apply truncated_short, H.
  - rewrite (truncated_long limit text H).
    assert (Htake : take limit (take limit text ++ "...") = take limit text)
      by (apply take_take_app; lia).
    split; [|exact Htake].
    rewrite truncated_long.
    + now rewrite Htake.
    + rewrite length_append, length_take. cbn. lia.
Qed.

(** ** The comments of a post *)

Lemma without_more_comments (forest : list comment_node) :
  without_more forest = map IsComment (comments_of forest).
Proof.
  induction forest as [|[c|] forest IH]; cbn; [reflexivity | | exact IH].
  now rewrite IH.
Qed.

Lemma comment_records_map (cs : list Comment) :
  comment_records (map IsComment cs) = map comment_info cs.
Proof.
  induction cs as [|c cs IH]; cbn; [reflexivity | now rewrite IH].
Qed.

Lemma slice_to_map {A B : Type} (f : A -> B) (n : Z) (l : list A) :
  slice_to n (map f l) = map f (slice_to n l).
Proof.
  unfold slice_to. rewrite length_map.
  destruct (0 <=? n)%Z; apply firstn_map.
Qed.

(** The records are those of the comments themselves, in their order, cut
    by the limit: a placeholder takes no place in the count.  With a limit
    that is not negative there are as many records as the limit allows and
    the post has comments. *)
Theorem comment_records_are_first_comments
    (comment_limit : Z) (forest : list comment_node) :
  comment_records (slice_to comment_limit (without_more forest))
  = map comment_info (slice_to comment_limit (comments_of forest))
  /\ ((0 <= comment_limit)%Z ->
      List.length (comment_records (slice_to comment_limit (without_more forest)))
      = Nat.min (Z.to_nat comment_limit) (List.length (comments_of forest))).
Proof.
  assert (H : comment_records (slice_to comment_limit (without_more forest))
              = map comment_info (slice_to comment_limit (comments_of forest))).
  { now rewrite without_more_comments, slice_to_map, comment_records_map. }
  split; [exact H|].
  intros Hlimit. rewrite H, length_map. unfold slice_to.
  destruct (Z.leb_spec 0 comment_limit); [|lia].
  apply length_firstn.
Qed.

Lemma comment_records_are_first_comments_witness :
  List.length (comment_records (slice_to 2 (without_more three_comments))) = 2.
Proof.
  apply (proj2 (comment_records_are_first_comments 2 three_comments)). lia.
Defined.

(** ** Arguments that are not used *)

(** Without comments the limit is not read and [replace_more] is not
    called: the answer and the calls are the same for any two limits, and the
    submission is the only thing asked of the client. *)
Theorem details_without_comments
    (w : world) (id : string) (limit1 limit2 : Z) (st : calls) :
  get_post_details w id false limit1 st = get_post_details w id false limit2 st
  /\ (snd (get_post_details w id false limit1 st) = st
      \/ snd (get_post_details w id false limit1 st) = CallSubmission id :: st).
Proof.
  run_tool. cbn.
  destruct (new_reddit w) as [reddit|e]; cbn; [|auto].
  destruct (submission reddit id) as [s|e]; cbn; auto.
Qed.

(** The time filter matters for the sort type top only: with any other sort
    type the answer and the calls do not depend on it. *)
Theorem time_filter_only_for_top
    (w : world) (subreddit_name sort_type : string) (limit : Z)
    (filter1 filter2 : string) (st : calls) :
  sort_type <> "top" ->
  get_subreddit_posts w subreddit_name sort_type limit filter1 st
  = get_subreddit_posts w subreddit_name sort_type limit filter2 st.
Proof.
  intros Htop. apply String.eqb_neq in Htop.
  run_tool. unfold posts_doc. cbn. rewrite Htop. reflexivity.
Qed.

Lemma time_filter_only_for_top_witness :
  get_subreddit_posts sample_reddit "python" "hot" 10 "day" []
  = get_subreddit_posts sample_reddit "python" "hot" 10 "year" [].
Proof.
  apply time_filter_only_for_top. discriminate.
Defined.

(** ** Errors and what marks them *)

Ltac leaf := intros [= <-]; cbn; intuition congruence.

(** An answer has an [error] member exactly when something went wrong: for
    a listing, a fault of the client or a sort type outside the four; for the
    three other tools, a fault of the client. *)
Theorem error_member_marks_failure
    (w : world) (st : calls)
    (name sort_type time_filter id query sort : string)
    (limit comment_limit : Z) (include_comments : bool) :
  (forall t,
      fst (get_subreddit_posts w name sort_type limit time_filter st) = Return t ->
      (field "error" (document t) = None
       <-> posts_fault w name sort_type limit time_filter = None
           /\ valid_sort sort_type = true))
  /\ (forall t,
         fst (get_post_details w id include_comments comment_limit st) = Return t ->
         (field "error" (document t) = None
          <-> details_fault w id include_comments = None))
  /\ (forall t,
         fst (search_reddit w query sort time_filter limit st) = Return t ->
         (field "error" (document t) = None
          <-> search_fault w query sort time_filter limit = None))
  /\ (forall t,
         fst (get_subreddit_info w name st) = Return t ->
         (field "error" (document t) = None <-> info_fault w name = None)).
Proof.
  unfold posts_fault, details_fault, search_fault, info_fault, fault_of,
    valid_sort.
  run_tool. cbn.
  destruct (new_reddit w) as [reddit|e0]; cbn;
    [|split; [|split; [|split]]; intros t; leaf].
  split; [|split; [|split]]; intros t.
  - destruct (subreddit reddit name) as [sr|e1]; cbn; [|leaf].
    destruct (String.eqb sort_type "hot"); cbn;
      [destruct (hot sr limit); cbn; leaf|].
    destruct (String.eqb sort_type "new"); cbn;
      [destruct (new sr limit); cbn; leaf|].
    destruct (String.eqb sort_type "top"); cbn;
      [destruct (top sr time_filter limit); cbn; leaf|].
    destruct (String.eqb sort_type "rising"); cbn;
      [destruct (rising sr limit); cbn; leaf|].
    leaf.
  - destruct (submission reddit id) as [s|e1]; cbn; [|leaf].
    destruct include_comments; cbn; [|leaf].
    destruct (post_replace_more s); cbn; leaf.
  - destruct (subreddit reddit "all") as [sr|e1]; cbn; [|leaf].
    destruct (search sr query sort time_filter limit); cbn; leaf.
  - destruct (subreddit reddit name) as [sr|e1]; cbn; [|leaf].
    destruct (about sr); cbn; leaf.
Qed.

Lemma error_member_marks_failure_witness :
  field "error"
    (document (json_dumps None (error_doc "Invalid sort_type. Use 'hot', 'new', 'top', or 'rising'")))
  = None
  <-> posts_fault sample_reddit "python" "best" 10 "day" = None
      /\ valid_sort "best" = true.
Proof.
  exact (proj1 (error_member_marks_failure sample_reddit [] "python" "best"
                  "day" "abc" "rocq" "relevance" 10 10 false) _ eq_refl).
Defined.

End RedditLaws.

(* ================================================================== *)
(** * Properties of the metadata tools *)
(* ================================================================== *)

Module BigQueryCatalogProofs.
Import Py BigQuery BigQueryProofs BigQueryCatalog.

Local Open Scope py_scope.

(** A table with both counts, and one for which the client has no counts. *)
Definition plain_table : table :=
  {| num_rows := Some 1200%Z; num_bytes := Some 4096%Z;
     created := "2024-01-01 00:00:00+00:00";
     modified := "2024-01-02 00:00:00+00:00";
     table_schema :=
       [ {| entry_name := "id"; entry_type := "INTEGER";
            entry_mode := "REQUIRED"; entry_description := None |} ];
     time_partitioning := None; clustering_fields := None |}.

Definition bare_table : table :=
  {| num_rows := None; num_bytes := None;
     created := "2024-01-01 00:00:00+00:00";
     modified := "2024-01-02 00:00:00+00:00";
     table_schema := []; time_partitioning := None; clustering_fields := None |}.

Definition orders_item : table_item :=
  {| table_id := "orders"; table_type := "TABLE" |}.

Definition recent_item : table_item :=
  {| table_id := "recent_orders"; table_type := "VIEW" |}.

(** A dataset with two tables and no description; the second table has no
    counts and the statistics have no sum. *)
Definition sample_catalog : catalog :=
  {| get_table_named := fun name =>
       if String.eqb name "orders" then Return plain_table
       else if String.eqb name "recent_orders" then Return bare_table
       else Raise (Exception "404 Not found: Table");
     list_dataset_tables := Return [orders_item; recent_item];
     get_listed_table := fun item =>
       if String.eqb (table_id item) "orders" then Return plain_table
       else Return bare_table;
     get_dataset :=
       Return {| dataset_project := "p"; dataset_location := "US";
                 dataset_created := "2024-01-01"; dataset_modified := "2024-01-02";
                 dataset_description := None |};
     query_statistics := fun _ =>
       Return [ {| table_count := 0%Z; total_size_gb := None |} ] |}.

(** What makes the block of a listed table fail, if anything does: the
    fetch of the table, or a count that is missing. *)
Definition item_fault (cat : catalog) (item : table_item) : option exn :=
  match get_listed_table cat item with
  | Raise e => Some e
  | Return t =>
      match num_rows t, num_bytes t with
      | None, _ => Some none_format
      | Some _, None => Some none_division
      | Some _, Some _ => None
      end
  end.

(** The first fault over the tables of a listing. *)
Fixpoint first_fault (cat : catalog) (items : list table_item) : option exn :=
  match items with
  | [] => None
  | item :: rest =>
      match item_fault cat item with
      | Some e => Some e
      | None => first_fault cat rest
      end
  end.

Section Laws.

Variable catalog_of : client -> catalog.
Variable thousands : Z -> string.
Variable megabytes : Z -> string.
Variable two_decimals : QArith_base.Q -> string.

(** The block of a table whose counts are there. *)
Definition block (cat : catalog) (item : table_item) : string :=
  match get_listed_table cat item with
  | Return t =>
      match num_rows t, num_bytes t with
      | Some r, Some b =>
          "- " ++ table_id item ++ nl
          ++ "  Type: " ++ table_type item ++ nl
          ++ "  Rows: " ++ thousands r ++ nl
          ++ "  Size: " ++ megabytes b ++ " MB" ++ nl ++ nl
      | _, _ => ""
      end
  | Raise _ => ""
  end.

Lemma concat_cons (x : string) (l : list string) :
  String.concat "" (x :: l) = x ++ String.concat "" l.
Proof.
  destruct l; cbn; [now rewrite RewriteProofs.append_empty_r | reflexivity].
Qed.

Lemma endswith_more (a s t : string) :
  endswith t s = true -> endswith t (a ++ s) = true.
Proof.
  unfold endswith. intros H. apply andb_true_iff in H as [_ H].
  apply String.eqb_eq in H.
  rewrite <- (RedditProofs.take_drop (String.length s - String.length t) s).
  rewrite H. rewrite <- RewriteProofs.append_assoc.
  exact (RedditProofs.endswith_append _ t).
Qed.

Lemma with_client {A : Type} (w : world) (k : client -> M process A)
    (st st1 : process) (c : client) :
  get_bigquery_client w st = (Return c, st1) ->
  bind (get_bigquery_client w) k st = k c st1.
Proof.
  intros H. unfold bind. now rewrite H.
Qed.

Lemma table_blocks_run (cat : catalog) (items : list table_item) (st : process) :
  table_blocks thousands megabytes cat items st
  = (match first_fault cat items with
     | Some e => Raise e
     | None => Return (String.concat "" (map (block cat) items))
     end, st).
Proof.
  induction items as [|item rest IH]; [reflexivity|].
  cbn [table_blocks first_fault map]. rewrite concat_cons.
  unfold item_fault, block, bind, call, ret, show_rows, show_size.
  destruct (get_listed_table cat item) as [t|e]; [|reflexivity].
  destruct (num_rows t) as [r|]; [|reflexivity].
  destruct (num_bytes t) as [b|]; [|reflexivity].
  rewrite IH.
  destruct (first_fault cat rest) as [e|]; [reflexivity|].
  f_equal. f_equal. now rewrite !RewriteProofs.append_assoc.
Qed.

(** With a client at hand none of the three metadata tools raises and none
    changes the cached client; without one, each raises the fault of the
    acquisition as it is. *)
Theorem metadata_tools_report_faults
    (w : world) (table_name : string) (st : process) :
  match get_bigquery_client w st with
  | (Return c, st1) =>
      (exists text,
          fst (get_table_schema catalog_of thousands megabytes w table_name st)
          = Return text)
      /\ (exists text,
             fst (list_tables catalog_of thousands megabytes w st) = Return text)
      /\ (exists text,
             fst (get_dataset_info catalog_of two_decimals w st) = Return text)
      /\ _bq_client
           (snd (get_table_schema catalog_of thousands megabytes w table_name st))
         = _bq_client st1
      /\ _bq_client (snd (list_tables catalog_of thousands megabytes w st))
         = _bq_client st1
      /\ _bq_client (snd (get_dataset_info catalog_of two_decimals w st))
         = _bq_client st1
  | (Raise e, st1) =>
      get_table_schema catalog_of thousands megabytes w table_name st
      = (Raise e, st1)
      /\ list_tables catalog_of thousands megabytes w st = (Raise e, st1)
      /\ get_dataset_info catalog_of two_decimals w st = (Raise e, st1)
  end.
Proof.
  destruct (get_bigquery_client w st) as [[c|e] st1] eqn:Hacq.
  - assert (Hschema :
      exists text,
        get_table_schema catalog_of thousands megabytes w table_name st
        = (Return text, st1)).
    { unfold get_table_schema. unfold bind at 1. rewrite Hacq.
      unfold try_except, bind, call, ret, show_rows, show_size.
      destruct (get_table_named (catalog_of c) table_name) as [t|e];
        [|eexists; reflexivity].
      destruct (num_rows t); [|eexists; reflexivity].
      destruct (num_bytes t); eexists; reflexivity. }
    assert (Hlist :
      exists text,
        list_tables catalog_of thousands megabytes w st = (Return text, st1)).
    { unfold list_tables. unfold bind at 1. rewrite Hacq.
      unfold try_except. unfold bind at 1. unfold call at 1.
      destruct (list_dataset_tables (catalog_of c)) as [items|e];
        [|eexists; reflexivity].
      unfold bind. rewrite table_blocks_run.
      destruct (first_fault (catalog_of c) items); eexists; reflexivity. }
    assert (Hinfo :
      exists text,
        get_dataset_info catalog_of two_decimals w st = (Return text, st1)).
    { unfold get_dataset_info. unfold bind at 1. rewrite Hacq.
      unfold try_except, bind, call, ret, show_gigabytes.
      destruct (get_dataset (catalog_of c)) as [ds|e]; [|eexists; reflexivity].
      destruct (query_statistics (catalog_of c) statistics_query)
        as [[|s rest]|e]; try (eexists; reflexivity).
      destruct (total_size_gb s); eexists; reflexivity. }
    destruct Hschema as [t1 H1], Hlist as [t2 H2], Hinfo as [t3 H3].
    rewrite H1, H2, H3. cbn [fst snd].
    repeat split; try reflexivity; eexists; reflexivity.
  - unfold get_table_schema, list_tables, get_dataset_info, bind.
    rewrite Hacq. auto.
Qed.

(** The listing is all or nothing.  When every table can be fetched and has
    both counts, the answer is the header, one block per table in the order of
    the listing, and a total that is the number of tables.  Otherwise the
    answer is the first fault alone, and the blocks already made are lost: one
    table without a row count is enough. *)
Theorem list_tables_all_or_nothing
    (w : world) (st st1 : process) (c : client) (items : list table_item) :
  get_bigquery_client w st = (Return c, st1) ->
  list_dataset_tables (catalog_of c) = Return items ->
  fst (list_tables catalog_of thousands megabytes w st)
  = Return
      match first_fault (catalog_of c) items with
      | Some e => "Error listing tables: " ++ str_exn e
      | None =>
          "Tables in dataset '" ++ DATASET_ID ++ "':" ++ nl ++ nl
          ++ String.concat "" (map (block (catalog_of c)) items)
          ++ "Total tables: " ++ str_int (Z.of_nat (List.length items))
      end.
Proof.
  intros Hacq Hlist. unfold list_tables, bind at 1. rewrite Hacq.
  unfold try_except, bind at 1, call at 1. rewrite Hlist.
  unfold bind. rewrite table_blocks_run.
  destruct (first_fault (catalog_of c) items); reflexivity.
Qed.

(** A count that the service does not report turns the answer into an
    error: the row count is formatted first, then the size; and the
    statistics of a dataset fail in the same way on a sum that is NULL, while
    a statistics query without rows only leaves the statistics out. *)
Theorem missing_counts_are_errors
    (w : world) (table_name : string) (st st1 : process) (c : client) :
  get_bigquery_client w st = (Return c, st1) ->
  (forall t : table,
      get_table_named (catalog_of c) table_name = Return t ->
      (num_rows t = None ->
       fst (get_table_schema catalog_of thousands megabytes w table_name st)
       = Return ("Error getting table schema: " ++ str_exn none_format))
      /\ (num_rows t <> None -> num_bytes t = None ->
          fst (get_table_schema catalog_of thousands megabytes w table_name st)
          = Return ("Error getting table schema: " ++ str_exn none_division))
      /\ (num_rows t <> None -> num_bytes t <> None ->
          exists rest : string,
            fst (get_table_schema catalog_of thousands megabytes w table_name st)
            = Return ("Schema for table '" ++ table_name ++ "':" ++ rest)))
  /\ (forall (ds : dataset) (rows : list statistics),
         get_dataset (catalog_of c) = Return ds ->
         query_statistics (catalog_of c) statistics_query = Return rows ->
         match rows with
         | [] =>
             exists text : string,
               fst (get_dataset_info catalog_of two_decimals w st) = Return text
               /\ endswith
                    ("Description: "
                     ++ description_or_default (dataset_description ds) ++ nl)
                    text = true
         | stats :: _ =>
             total_size_gb stats = None ->
             fst (get_dataset_info catalog_of two_decimals w st)
             = Return ("Error getting dataset info: " ++ str_exn none_format)
         end).
Proof.
  intros Hacq. split.
  - intros t Ht.
    unfold get_table_schema. rewrite !(with_client _ _ _ _ _ Hacq).
    unfold try_except, bind, call, ret, show_rows, show_size. rewrite Ht.
    destruct (num_rows t) as [r|].
    + destruct (num_bytes t) as [b|].
      * split; [discriminate|]. split; [discriminate|].
        intros _ _. eexists. reflexivity.
      * split; [discriminate|]. split; [reflexivity | congruence].
    + split; [reflexivity|]. split; congruence.
  - intros ds rows Hds Hrows.
    unfold get_dataset_info. rewrite !(with_client _ _ _ _ _ Hacq).
    unfold try_except, bind, call, ret, show_gigabytes. rewrite Hds, Hrows.
    destruct rows as [|stats rest].
    + eexists. split; [reflexivity|].
      do 17 apply endswith_more.
      exact (RedditProofs.endswith_append "" _).
    + intros Hnone. rewrite Hnone. reflexivity.
Qed.

End Laws.

Lemma list_tables_all_or_nothing_witness :
  fst (list_tables (fun _ => sample_catalog) (fun _ => "") (fun _ => "")
         sample_world serving)
  = Return "Error listing tables: unsupported format string passed to NoneType.__format__".
Proof.
  exact (list_tables_all_or_nothing (fun _ => sample_catalog) (fun _ => "")
           (fun _ => "") sample_world serving serving dml_client
           [orders_item; recent_item] eq_refl eq_refl).
Defined.

Lemma missing_counts_are_errors_witness :
  fst (get_dataset_info (fun _ => sample_catalog) (fun _ => "")
         sample_world serving)
  = Return "Error getting dataset info: unsupported format string passed to NoneType.__format__".
Proof.
  exact (proj2 (missing_counts_are_errors (fun _ => sample_catalog)
                  (fun _ => "") (fun _ => "") (fun _ => "")
                  sample_world "orders" serving serving dml_client eq_refl)
           _ _ eq_refl eq_refl eq_refl).
Defined.

End BigQueryCatalogProofs.
